(** * splitwavepy: the grid-search measurement core

    A shallow embedding of [splitwavepy/core/data.py], [core/pair.py] and
    [core/measure.py], and the properties of the windowing, lag-grid,
    grid-search, error-bar and equality code.

    Conventions.
    - Python integers are [Z]; [int(a/2)] on integers is truncation
      ([Z.quot]) and [%] is the floored remainder ([Z.modulo]).
    - Double-precision numbers are an abstract type [F] with the operations
      the code uses (class [Float]); nothing is assumed about their
      arithmetic.  [QFloat] instantiates them with rationals to run examples.
    - A raised exception is a value: every fallible function returns
      [result A], and the first exception aborts the rest of the call.
    - [core.py], [io.py] and the numpy / scipy functions are not part of the
      sources at hand; they are the fields of the classes [Numpy], [Core] and
      [DataWindow].
    - A name that a module uses without binding it is looked up when the
      line runs; class [Names] says which of these names are bound then, and
      [as_written] is the sources as they stand. *)

From Stdlib Require Import ZArith List String QArith Qround Bool Lia Sorted.
From stdpp Require Import base option gmap strings list pretty.
Import ListNotations.

Local Open Scope string_scope.
Local Open Scope Z_scope.
Local Open Scope list_scope.

(** ** Exceptions *)

Inductive exn : Type :=
| Exception (msg : string)
| TypeError (msg : string)
| ValueError (msg : string)
| IndexError
| KeyError (key : string)
| AttributeError (attr : string)
| NameError (name : string).

Inductive result (A : Type) : Type :=
| Ok (a : A)
| Raise (e : exn).

Arguments Ok {A} a.
Arguments Raise {A} e.

#[global] Instance result_ret : MRet result := fun _ a => Ok a.
#[global] Instance result_bind : MBind result := fun _ _ f m =>
  match m with
  | Ok a => f a
  | Raise e => Raise e
  end.

Definition is_ok {A} (r : result A) : bool :=
  match r with Ok _ => true | Raise _ => false end.

(** [mapM f l]: a list comprehension whose body may raise; elements are
    evaluated left to right and the first exception escapes. *)
Fixpoint mapM {A B} (f : A -> result B) (l : list A) : result (list B) :=
  match l with
  | [] => Ok []
  | a :: l' => b ← f a; bs ← mapM f l'; Ok (b :: bs)
  end.

(** Python indexing [l[i]] of a sequence, negative indices counting from the
    end. *)
Definition index {A} (l : list A) (i : Z) : result A :=
  let n := Z.of_nat (length l) in
  let j := if i <? 0 then i + n else i in
  if (j <? 0) || (n <=? j) then Raise IndexError
  else match l !! Z.to_nat j with
       | Some a => Ok a
       | None => Raise IndexError
       end.

(** Bounds of the Python slice [a[start:stop]] on a sequence of [n] items. *)
Definition slice_index (n i : Z) : Z :=
  if i <? 0 then Z.max (i + n) 0 else Z.min i n.

Definition slice_length (n start stop : Z) : Z :=
  Z.max 0 (slice_index n stop - slice_index n start).

(** ** Names the sources leave unbound

    The sources use names that nothing in them binds.  data.py calls
    [signal.tukey] and [io.copy] but imports neither [signal] nor [io] (its
    only imports are [core] and [numpy]); pair.py calls [self.data()] and
    measure.py calls [self.data._w0()] and [self.data._w1()], methods that
    neither [Data] nor [Pair] defines.  Python resolves a name when the line
    runs: an unbound global raises NameError, a missing method
    AttributeError.  [Names] records which of the names are bound at that
    time. *)
Class Names : Type := {
  signal_bound : bool;          (* the global [signal] of data.py *)
  io_bound : bool;              (* the global [io] of data.py *)
  data_bound : bool;            (* the attribute [data] of a pair *)
  w0_w1_bound : bool;           (* the attributes [_w0], [_w1] of a pair *)
}.

(** The sources as they stand: none of the names is bound. *)
Definition as_written : Names :=
  {| signal_bound := false; io_bound := false; data_bound := false;
     w0_w1_bound := false |}.

(** The sources with the two imports and the methods supplied. *)
Definition all_bound : Names :=
  {| signal_bound := true; io_bound := true; data_bound := true;
     w0_w1_bound := true |}.

(** ** Double-precision numbers *)

Class Float : Type := {
  F : Type;
  of_int : Z -> F;              (* int -> float conversion *)
  fadd : F -> F -> F;
  fsub : F -> F -> F;
  fmul : F -> F -> F;
  fdiv : F -> F -> F;
  fneg : F -> F;
  fleb : F -> F -> bool;        (* a <= b *)
  feqb : F -> F -> bool;        (* a == b *)
  quarter : F;                  (* the literal 0.25 *)
  radians : F -> F;             (* math.radians *)
  fcos : F -> F;
  fsin : F -> F;
}.

(** The numpy / scipy functions the code calls. *)
Class Numpy `{Float} : Type := {
  linspace : F -> F -> F -> result (list F);   (* np.linspace(start, stop, num) *)
  linspace_open : F -> F -> F -> result (list F); (* ... endpoint=False *)
  tukey : Z -> F -> list F;                    (* signal.tukey(M, alpha) *)
  allclose_eye2 : list (list F) -> bool;       (* np.allclose(m, np.eye(2), atol=1e-02) *)
}.

(** ** Python values

    The values that travel through keyword arguments and instance
    dictionaries. *)

Record ndarray `{Float} : Type := NDArray {
  ndim : Z;
  flat : list F;
}.

Definition size `{Float} (a : ndarray) : Z := Z.of_nat (length (flat a)).

(** A one-dimensional array. *)
Definition array1 `{Float} (l : list F) : ndarray := NDArray _ 1 l.

Inductive pyval `{Float} : Type :=
| VNone
| VInt (z : Z)
| VFloat (f : F)
| VStr (s : string)
| VTuple (t : list F)
| VArray (a : ndarray)
| VMatrix (m : list (list F))
| VStrList (l : list string).

(** [isinstance(v, np.ndarray)]: the array behind a value, if it is one. *)
Definition as_ndarray `{Float} (v : pyval) : option ndarray :=
  match v with
  | VArray a => Some a
  | VMatrix m => Some (NDArray _ 2 (concat m))
  | _ => None
  end.

(** [**kwargs] *)
Abbreviation kwargs := (gmap string pyval).

(** [key in kwargs] *)
Definition has_key `{Float} (kw : kwargs) (key : string) : bool :=
  bool_decide (is_Some (kw !! key)).

(** ** data.py: Window *)

Module Window.

Record t `{Float} : Type := Build {
  width : Z;
  offset : Z;
  tukey_ : option F;
}.

Section Defs.
Context `{Numpy} {ns : Names}.

(** [Window.__init__(self, width, offset=0, tukey=None)] *)
Definition __init__ (width offset : Z) (tukey : option F) : result t :=
  if negb (width mod 2 =? 1)
  then Raise (Exception "width must be an odd integer")
  else Ok (Build _ width offset tukey).

Definition start (self : t) (samps : Z) : result Z :=
  let hw := Z.quot (width self) 2 in
  if negb (samps mod 2 =? 1)
  then Raise (Exception "samps must be odd to have definite centre")
  else let centre := Z.quot samps 2 in
       Ok (centre + offset self - hw).

Definition end_ (self : t) (samps : Z) : result Z :=
  let hw := Z.quot (width self) 2 in
  if negb (samps mod 2 =? 1)
  then Raise (Exception "samps must be odd to have definite centre")
  else let centre := Z.quot samps 2 in
       Ok (centre + offset self + hw).

Definition centre (self : t) (samps : Z) : result Z :=
  if negb (samps mod 2 =? 1)
  then Raise (Exception "samps must be odd to have definite centre")
  else let centre := Z.quot samps 2 in
       Ok (centre + offset self).

(** [array[a:b] = v] on a one-dimensional array: the slice is clipped to
    the array, [v] must have the length of the slice or length one. *)
Definition assign_slice (array : list F) (a b : Z) (v : list F)
  : result (list F) :=
  let n := Z.of_nat (length array) in
  let lo := slice_index n a in
  let len := slice_length n a b in
  if Z.of_nat (length v) =? len
  then Ok (take (Z.to_nat lo) array ++ v
           ++ drop (Z.to_nat (lo + len)) array)
  else if Z.of_nat (length v) =? 1
  then Ok (take (Z.to_nat lo) array
           ++ replicate (Z.to_nat len) (nth 0 v (of_int 0))
           ++ drop (Z.to_nat (lo + len)) array)
  else Raise (ValueError "could not broadcast input array").

(** [signal.tukey(M, alpha=alpha)]: the global [signal] is looked up
    first. *)
Definition signal_tukey (M : Z) (alpha : F) : result (list F) :=
  if signal_bound then Ok (tukey M alpha)
  else Raise (NameError "signal").

Definition asarray (self : t) (samps : Z) : result (list F) :=
  (* sense check -- is window in range? *)
  e ← end_ self samps;
  if samps <? e then Raise (Exception "Window exceeds max range") else
  s ← start self samps;
  if s <? 0 then Raise (Exception "Window exceeds min range") else
  (* sexy cosine taper *)
  let alpha := match tukey_ self with
               | None => of_int 0
               | Some a => a
               end in
  tk ← signal_tukey (width self) alpha;
  let array := replicate (Z.to_nat samps) (of_int 0) in
  s ← start self samps;
  e ← end_ self samps;
  assign_slice array s (e + 1) tk.

(** [shift], [resize] and [retukey] reassign an attribute. *)
Definition shift (self : t) (shift : Z) : t :=
  Build _ (width self) (offset self + shift) (tukey_ self).

Definition retukey (self : t) (tukey : option F) : t :=
  Build _ (width self) (offset self) tukey.

(** The instance dictionary: [__init__] sets three attributes and no
    method adds or removes one. *)
Definition __dict__ (self : t) : gmap string pyval :=
  <["width" := VInt (width self)]>
    (<["offset" := VInt (offset self)]>
       (<["tukey" := match tukey_ self with
                     | None => VNone
                     | Some a => VFloat a
                     end]> ∅)).

Definition __class__ (self : t) : string := "Window".

(** [Window.__eq__(self, other)] *)
Definition __eq__ (self other : t) : bool :=
  if negb (String.eqb (__class__ self) (__class__ other)) then false else
  if negb (bool_decide (dom (__dict__ self) = dom (__dict__ other)))
  then false else
  true.

End Defs.
End Window.

(** The functions of [core.py], which is not among the sources at hand, and
    the numpy expressions of pair.py and data.py that work on matrices,
    angles and labels. *)
Class Core `{Numpy} : Type := {
  rotate : list F -> list F -> F -> list F * list F;
  lag : list F -> list F -> Z -> list F * list F;
  chop : list F -> list F -> Z -> Z -> result (list F * list F);
  unsplit : list F -> list F -> F -> Z -> list F * list F;
  time2samps : F -> F -> string -> Z;
  samps2time : Z -> F -> F;
  odd : F -> Z;
  even : Z -> Z;
  synth : kwargs -> result (ndarray * ndarray);
  dot : list (list F) -> list (list F) -> list (list F);   (* np.dot *)
  cmpang : list F -> F;           (* np.rad2deg(np.arctan2(c[1], c[0])) *)
  str_round : F -> string;        (* str(round(a)) *)
}.

(** ** data.py: Data, and pair.py: Pair *)

Module Pair.

Record t `{Float} : Type := Build {
  class_ : string;                 (* "Data" or "Pair" *)
  x : ndarray;
  y : ndarray;
  delta : F;                       (* _Data__delta *)
  geom : string;                   (* _Data__geom *)
  cmpvecs : list (list F);
  units : pyval;                   (* _Data__units *)
  cmplabels : list string;         (* _Data__cmplabels *)
  window : Window.t;               (* _Data__window *)
  eig : option (list F * list (list F));  (* eigvals, eigvecs: set by eigen() *)
}.

Section Defs.
Context `{Core} {ns : Names}.

Definition eye2 : list (list F) :=
  [[of_int 1; of_int 0]; [of_int 0; of_int 1]].

(** The [delta] setter. *)
Definition set_delta (delta : pyval) : result F :=
  match delta with
  | VInt z => if z <=? 0 then Raise (ValueError "delta must be positive")
              else Ok (of_int z)
  | VFloat f => if fleb f (of_int 0)
                then Raise (ValueError "delta must be positive")
                else Ok f
  | _ => Raise (TypeError "unorderable types")
  end.

Definition possible_geoms : list string := ["geo"; "ray"; "cart"].

(** The [geom] setter. *)
Definition set_geom (geom : pyval) : result string :=
  match geom with
  | VStr g => if bool_decide (g ∈ possible_geoms) then Ok g
              else Raise (ValueError "geom must be one of ['geo', 'ray', 'cart']")
  | _ => Raise (ValueError "geom must be one of ['geo', 'ray', 'cart']")
  end.

Definition column (m : list (list F)) (j : nat) : list F :=
  map (fun row => nth j row (of_int 0)) m.

Definition cmpangs (cmpvecs : list (list F)) : F * F :=
  (cmpang (column cmpvecs 0), cmpang (column cmpvecs 1)).

Definition degree_label (a : F) : string :=
  (str_round a ++ " ($^\circ$)")%string.

(** [set_labels()] without arguments. *)
Definition set_labels (cmpvecs : list (list F)) (geom : string)
  : list string :=
  if allclose_eye2 cmpvecs then
    if String.eqb geom "geo" then ["North"; "East"]
    else if String.eqb geom "ray" then ["SV"; "SH"]
    else if String.eqb geom "cart" then ["X"; "Y"]
    else ["Comp1"; "Comp2"]
  else
    let '(a1, a2) := cmpangs cmpvecs in
    [degree_label a1; degree_label a2].

(** [Data.__init__(self, x, y, *args, **kwargs)], for an instance of class
    [cls]. *)
Definition Data__init__ (cls : string) (x y : ndarray) (kw : kwargs)
  : result t :=
  match kw !! "delta" with
  | None => Raise (Exception "delta must be set")
  | Some d =>
    delta ← set_delta d;
    (* some sanity checks *)
    if negb (ndim x =? 1)
    then Raise (Exception "data must be one dimensional") else
    if size x mod 2 =? 0
    then Raise (Exception "data must have odd number of samples") else
    if negb (size x =? size y)
    then Raise (Exception "x and y must be the same length") else
    (* add geometry info *)
    geom ← match kw !! "geom" with
           | Some g => set_geom g
           | None => Ok "geo"
           end;
    (* a [cmpvecs] that is not a matrix fails in [np.allclose] *)
    cmpvecs ← match kw !! "cmpvecs" with
              | Some (VMatrix m) => Ok m
              | Some _ => Raise (TypeError "cmpvecs")
              | None => Ok eye2
              end;
    let units := default (VStr "s") (kw !! "units") in
    let labels := set_labels cmpvecs geom in
    (* default window *)
    w ← Window.__init__ (odd (fdiv (of_int (size x)) (of_int 3))) 0 None;
    Ok (Build _ cls x y delta geom cmpvecs units labels w None)
  end.

(** [Pair.__init__(self, *args, **kwargs)] *)
Definition __init__ (args : list pyval) (kw : kwargs) : result t :=
  match args with
  | [] => '(x, y) ← synth kw; Data__init__ "Pair" x y kw
  | [a0; a1] =>
    match as_ndarray a0, as_ndarray a1 with
    | Some x, Some y => Data__init__ "Pair" x y kw
    | _, _ => Raise (TypeError "expecting numpy arrays")
    end
  | _ => Raise (Exception "Unexpected number of arguments")
  end.

Definition _nsamps (self : t) : Z := size (x self).

Definition _centresamp (self : t) : Z := Z.quot (size (x self)) 2.

Definition wwidth (self : t) : F :=
  fmul (of_int (Window.width (window self) - 1)) (delta self).

Definition transpose2 (m : list (list F)) : list (list F) :=
  [column m 0; column m 1].

(** Modelled from the spec: the method [data] of a pair, which no class of
    the sources defines.  Rotation works on "both the samples", and
    [rotateto] uses the value as an array of two rows
    ([xy = np.dot(rot, self.data())], then [xy[0]] and [xy[1]]): both
    traces, as the rows of one array. *)
Definition data_rows (self : t) : list (list F) :=
  [flat (x self); flat (y self)].

(** [self.data()]: the attribute [data] is looked up first. *)
Definition data (self : t) : result (list (list F)) :=
  if data_bound then Ok (data_rows self)
  else Raise (AttributeError "data").

Definition rotateto (self : t) (degrees : F) : result t :=
  let ang := radians degrees in
  let cang := fcos ang in
  let sang := fsin ang in
  let backoff := cmpvecs self in
  let cmpvecs' := [[cang; fneg sang]; [sang; cang]] in
  let rot := dot (transpose2 cmpvecs') backoff in
  (* rotate data *)
  d ← data self;
  let xy := dot rot d in
  x' ← index xy 0;
  y' ← index xy 1;
  Ok (Build _ (class_ self) (array1 x') (array1 y') (delta self) (geom self)
            cmpvecs'
            (units self) (set_labels cmpvecs' (geom self))
            (window self) (eig self)).

(** Modelled from the spec: [io.copy], of the absent io.py; "copies are
    value-semantics snapshots (deep copy of samples and metadata)".  Values
    are immutable here, so the snapshot is the value. *)
Definition io_copy (self : t) : t := self.

(** [Data.copy(self)]: [return io.copy(self)]; the global [io] is looked up
    first. *)
Definition copy (self : t) : result t :=
  if io_bound then Ok (io_copy self)
  else Raise (NameError "io").

(** [eigen()]: [self.eigvals, self.eigvecs = core.eigcov(self.data())];
    [eigvals] and [eigvecs] are what [core.eigcov] returns. *)
Definition eigen (self : t) (eigvals : list F) (eigvecs : list (list F))
  : result t :=
  _ ← data self;
  Ok (Build _ (class_ self) (x self) (y self) (delta self) (geom self)
            (cmpvecs self) (units self) (cmplabels self) (window self)
            (Some (eigvals, eigvecs))).

(** Replacing the window ([set_window]). *)
Definition with_window (self : t) (w : Window.t) : t :=
  Build _ (class_ self) (x self) (y self) (delta self) (geom self)
        (cmpvecs self) (units self) (cmplabels self) w (eig self).

(** *** Equality *)

(** The values of an instance dictionary. *)
Inductive attr : Type :=
| AVal (v : pyval)
| AWindow (w : Window.t).

(** The instance dictionary.  Attributes assigned as [self.__a] inside class
    [Data] are stored under [_Data__a]; [Pair.__init__] also stores the
    result of [Data.__init__], which is [None], as [self.Data]. *)
Definition __dict__ (self : t) : gmap string attr :=
  let d0 : gmap string attr :=
    <["x" := AVal (VArray (x self))]>
    (<["y" := AVal (VArray (y self))]>
    (<["_Data__delta" := AVal (VFloat (delta self))]>
    (<["_Data__geom" := AVal (VStr (geom self))]>
    (<["cmpvecs" := AVal (VMatrix (cmpvecs self))]>
    (<["_Data__units" := AVal (units self)]>
    (<["_Data__cmplabels" := AVal (VStrList (cmplabels self))]>
    (<["_Data__window" := AWindow (window self)]> ∅))))))) in
  let d1 := if String.eqb (class_ self) "Pair"
            then <["Data" := AVal VNone]> d0 else d0 in
  match eig self with
  | Some (vals, vecs) =>
    <["eigvals" := AVal (VArray (array1 vals))]>
      (<["eigvecs" := AVal (VMatrix vecs)]> d1)
  | None => d1
  end.

(** [np.all(a == b)] on arrays: element by element, an axis of length one
    being stretched to the other operand's length; arrays whose shapes do not
    fit compare unequal. *)
Definition broadcast_all {A} (eq : A -> A -> bool) (a b : list A) : bool :=
  if bool_decide (length a = length b)
  then forallb (fun p => eq p.1 p.2) (zip a b)
  else match a, b with
       | [u], _ => forallb (eq u) b
       | _, [v] => forallb (fun u => eq u v) a
       | _, _ => false
       end.

Definition num_eq (a b : pyval) : option bool :=
  match a, b with
  | VInt m, VInt n => Some (m =? n)
  | VInt m, VFloat g => Some (feqb (of_int m) g)
  | VFloat f, VInt n => Some (feqb f (of_int n))
  | VFloat f, VFloat g => Some (feqb f g)
  | _, _ => None
  end.

(** [np.all(a == b)] on two values. *)
Definition val_all_eq (a b : pyval) : bool :=
  match a, b with
  | VNone, VNone => true
  | VStr s, VStr s' => String.eqb s s'
  | VTuple t, VTuple t' =>
    bool_decide (length t = length t') && forallb (fun p => feqb p.1 p.2) (zip t t')
  | VStrList l, VStrList l' =>
    bool_decide (length l = length l') && forallb (fun p => String.eqb p.1 p.2) (zip l l')
  | VArray u, VArray v => broadcast_all feqb (flat u) (flat v)
  | VArray u, (VInt _ | VFloat _) =>
    forallb (fun e => default false (num_eq (VFloat e) b)) (flat u)
  | (VInt _ | VFloat _), VArray v =>
    forallb (fun e => default false (num_eq a (VFloat e))) (flat v)
  | VMatrix m, VMatrix m' => broadcast_all (broadcast_all feqb) m m'
  | _, _ => default false (num_eq a b)
  end.

(** [np.all(a == b)] on two attribute values; a window is compared by
    [Window.__eq__]. *)
Definition all_eq (a b : attr) : bool :=
  match a, b with
  | AVal u, AVal v => val_all_eq u v
  | AWindow u, AWindow v => Window.__eq__ u v
  | _, _ => false
  end.

(** [Data.__eq__] and [Pair.__eq__] (the same code). *)
Definition __eq__ (self other : t) : bool :=
  (* check same class *)
  if negb (String.eqb (class_ self) (class_ other)) then false else
  (* check same keys *)
  if negb (bool_decide (dom (__dict__ self) = dom (__dict__ other)))
  then false else
  (* check same values *)
  forallb (fun kv => match __dict__ other !! kv.1 with
                     | Some v => all_eq kv.2 v
                     | None => false
                     end)
          (map_to_list (__dict__ self)).

End Defs.
End Pair.

(** ** measure.py: Measure *)

(** [np.unique] on integers: the sorted distinct elements. *)
Fixpoint insert_unique (z : Z) (l : list Z) : list Z :=
  match l with
  | [] => [z]
  | h :: t => if z <? h then z :: l
              else if z =? h then l
              else h :: insert_unique z t
  end.

Definition unique (l : list Z) : list Z := foldr insert_unique [] l.

(** [np.where(b)[0]]: the indices of the true entries, ascending. *)
Fixpoint where_from (i : Z) (b : list bool) : list Z :=
  match b with
  | [] => []
  | h :: t => if h then i :: where_from (i + 1) t else where_from (i + 1) t
  end.

Definition where_ (b : list bool) : list Z := where_from 0 b.

(** [np.diff]: differences of consecutive elements. *)
Fixpoint diff (l : list Z) : list Z :=
  match l with
  | a :: (b :: _) as t => (b - a) :: diff t
  | _ => []
  end.

(** [a.max()]: raises on an empty array. *)
Definition amax (l : list Z) : result Z :=
  match l with
  | [] => Raise (ValueError "zero-size array to reduction operation maximum which has no identity")
  | h :: t => Ok (foldl Z.max h t)
  end.

(** A two-dimensional boolean array: [ncols] columns and the rows. *)
Record mask : Type := Mask {
  ncols : nat;
  rows : list (list bool);
}.

(** [m.any(axis=1)]: one entry per row. *)
Definition any_axis1 (m : mask) : list bool := map (existsb id) (rows m).

(** [m.any(axis=0)]: one entry per column. *)
Definition any_axis0 (m : mask) : list bool :=
  foldr (fun row acc => zip_with orb row acc) (replicate (ncols m) false) (rows m).

(** [Data._w0()] and [Data._w1()], which [gridsearch] calls for the bounds of
    the window; data.py does not define them. *)
Class DataWindow `{Core} : Type := {
  _w0 : Pair.t -> Z;
  _w1 : Pair.t -> Z;
}.

(** A two-dimensional float array (the error surface). *)
Record surface `{Float} : Type := Surface {
  surf_ncols : nat;
  surf_rows : list (list F);
}.

Module Measure.

Record t `{Float} : Type := Build {
  data : Pair.t;
  func : list F -> list F -> list F;
  degs : list F;
  lags : list F;
  slags : list Z;
  rcvcorr : option (F * F);
  __rcvcorr : option (F * Z);         (* _Measure__rcvcorr *)
  srccorr : option (F * F);
  __srccorr : option (F * Z);         (* _Measure__srccorr *)
  name : pyval;
  kwargs_ : kwargs;
  (* set by the measurement classes built on Measure *)
  errsurf : option surface;
  conf95level : option F;
}.

Section Defs.
Context `{DataWindow} {ns : Names}.

Definition _parse_lags (data : Pair.t) (kw : kwargs) : result (list F) :=
  (* LAGS *)
  let minlag := of_int 0 in
  let maxlag := fdiv (Pair.wwidth data) (of_int 4) in
  let nlags := of_int 40 in
  match kw !! "lags" with
  | None => linspace minlag maxlag nlags
  | Some (VArray a) => Ok (flat a)
  | Some (VMatrix m) => Ok (concat m)
  | Some (VTuple t) =>
    match t with
    | [l0] => linspace minlag l0 nlags
    | [l0; l1] => linspace minlag l0 l1
    | [l0; l1; l2] => linspace l0 l1 l2
    | _ => Raise (Exception "Can't parse lags keyword")
    end
  | Some _ => Raise (TypeError "lags keyword must be a tuple or numpy array")
  end.

(** The grid is held as a list, the elements of the array in row-major
    order: for a one-dimensional array ("numpy array of degs to explore")
    these are the angles that [for ang in self.degs] visits. *)
Definition _parse_degs (kw : kwargs) : result (list F) :=
  (* DEGS *)
  let mindeg := of_int (-90) in
  let maxdeg := of_int 90 in
  let ndegs := of_int 90 in
  match kw !! "degs" with
  | None => linspace_open mindeg maxdeg ndegs
  | Some (VArray a) => Ok (flat a)
  | Some (VMatrix m) => Ok (concat m)
  | Some (VInt n) => linspace_open mindeg maxdeg (of_int n)
  | Some _ => Raise (TypeError "degs must be an integer or numpy array")
  end.

Definition _get_degs_lags_and_slags (data : Pair.t) (kw : kwargs)
  : result (list F * list F * list Z) :=
  (* convert lags to samps and back again *)
  lags ← _parse_lags data kw;
  let slags :=
    unique (map (fun t => time2samps t (Pair.delta data) "even") lags) in
  let lags := map (fun s => samps2time s (Pair.delta data)) slags in
  (* parse degs *)
  degs ← _parse_degs kw;
  Ok (degs, lags, slags).

(** The two correction blocks of [__init__] are the same code. *)
Definition parse_corr (data : Pair.t) (kw : kwargs) (key : string)
  : result (option (F * Z) * option (F * F)) :=
  match kw !! key with
  | None => Ok (None, None)
  | Some (VTuple t) =>
    match t with
    | [deg; lag] =>
      (* convert time shift to nsamples -- must be even *)
      let samps := time2samps lag (Pair.delta data) "even" in
      Ok (Some (deg, samps),
          Some (deg, fmul (of_int samps) (Pair.delta data)))
    | _ => Raise (Exception (key ++ " must be length 2"))
    end
  | Some _ => Raise (TypeError (key ++ " must be tuple"))
  end.

(** [Measure.__init__(self, data, func, **kwargs)] *)
Definition __init__ (data : Pair.t) (func : list F -> list F -> list F)
  (kw : kwargs)
  : result t :=
  '(degs, lags, slags) ← _get_degs_lags_and_slags data kw;
  (* receiver correction *)
  '(rcv_, rcv) ← parse_corr data kw "rcvcorr";
  (* source correction *)
  '(src_, src) ← parse_corr data kw "srccorr";
  (* Name *)
  let name := default (VStr "Untitled") (kw !! "name") in
  (* backup keyword args *)
  Ok (Build _ data func degs lags slags rcv rcv_ src src_ name kw
            None None).

(** *** gridsearch *)

(** The local function [win] of [gridsearch]; [s0], [s1] are the window
    bounds it closes over. *)
Definition win (s0 s1 shift : Z) : Z * Z :=
  let ds := Z.quot (Z.abs shift) 2 in
  (s0 - ds, s1 - ds).

(** The local function [srccorr]: one of two closures, chosen by the
    keyword. *)
Definition srccorr_closure (self : t) (kw : kwargs)
  : result (list F -> list F -> F -> list F * list F) :=
  if has_key kw "srccorr" then
    match __srccorr self with
    | Some (srcphi, srclag) =>
      Ok (fun x y ang => unsplit x y (fsub srcphi ang) srclag)
    | None => Raise (AttributeError "_Measure__srccorr")
    end
  else Ok (fun x y ang => (x, y)).

(** [kwargs['pol'] - ang], evaluated at each call of [rotpol]. *)
Definition pol_minus (kw : kwargs) (ang : F) : result F :=
  match kw !! "pol" with
  | None => Raise (KeyError "pol")
  | Some (VFloat p) => Ok (fsub p ang)
  | Some (VInt p) => Ok (fsub (of_int p) ang)
  | Some _ => Raise (TypeError "unsupported operand type(s) for -")
  end.

(** The local function [rotpol]. *)
Definition rotpol_closure (kw : kwargs)
  : list F -> list F -> F -> result (list F * list F) :=
  if match kw !! "mode" with
     | Some (VStr m) => String.eqb m "rotpol"
     | _ => false
     end
  then fun x y ang => a ← pol_minus kw ang; Ok (rotate x y a)
  else fun x y ang => Ok (x, y).

(** The local function [getout], the body of the inner loop. *)
Definition getout (self : t)
  (win : Z -> Z * Z)
  (srccorr : list F -> list F -> F -> list F * list F)
  (rotpol : list F -> list F -> F -> result (list F * list F))
  (x y : list F) (ang : F) (shift : Z) : result (list F) :=
  (* remove shift *)
  let '(x, y) := lag x y (- shift) in
  let '(x, y) := srccorr x y ang in
  '(x, y) ← chop x y (win shift).1 (win shift).2;
  '(x, y) ← rotpol x y ang;
  Ok (func self x y).

(** [self.data._w0(), self.data._w1()]: the attribute [_w0] is looked up
    first. *)
Definition window_bounds (d : Pair.t) : result (Z * Z) :=
  if w0_w1_bound then Ok (_w0 d, _w1 d)
  else Raise (AttributeError "_w0").

Definition gridsearch (self : t) (kw : kwargs)
  : result (list (list (list F))) :=
  (* ensure trace1 at zero angle *)
  copy ← Pair.copy (data self);
  copy ← Pair.rotateto copy (of_int 0);
  let x := flat (Pair.x copy) in
  let y := flat (Pair.y copy) in
  (* window *)
  '(s0, s1) ← window_bounds (data self);
  (* pre-apply receiver correction *)
  '(x, y) ← (if has_key kw "rcvcorr" then
               match __rcvcorr self with
               | Some (rcvphi, rcvlag) => Ok (unsplit x y rcvphi rcvlag)
               | None => Raise (AttributeError "_Measure__rcvcorr")
               end
             else Ok (x, y));
  (* source correction *)
  srccorr ← srccorr_closure self kw;
  (* rotate to polaristation (needed for tranverse min) *)
  let rotpol := rotpol_closure kw in
  (* Do the grid search *)
  let prerot := map (fun ang => (rotate x y ang, ang)) (degs self) in
  mapM (fun xy_ang : (list F * list F) * F =>
          let '(xy, ang) := xy_ang in
          mapM (fun shift => getout self (win s0 s1) srccorr rotpol
                                    xy.1 xy.2 ang shift)
               (slags self))
       prerot.

(** *** get_errors *)

(** [self.errsurf >= self.conf95level] and [self.errsurf <= ...]. *)
Definition surf_ge (s : surface) (level : F) : mask :=
  Mask (surf_ncols s) (map (map (fun v => fleb level v)) (surf_rows s)).

Definition surf_le (s : surface) (level : F) : mask :=
  Mask (surf_ncols s) (map (map (fun v => fleb v level)) (surf_rows s)).

Definition attribute {A} (name : string) (a : option A) : result A :=
  match a with
  | Some v => Ok v
  | None => Raise (AttributeError name)
  end.

(** The confidence region: the nodes inside the 95% level. *)
Definition confidence_mask (self : t) (surftype : pyval) : result mask :=
  match surftype with
  | VStr st =>
    if String.eqb st "max" then
      s ← attribute "errsurf" (errsurf self);
      l ← attribute "conf95level" (conf95level self);
      Ok (surf_ge s l)
    else if String.eqb st "min" then
      s ← attribute "errsurf" (errsurf self);
      l ← attribute "conf95level" (conf95level self);
      Ok (surf_le s l)
    else Raise (ValueError "surftype must be min or max")
  | _ => Raise (ValueError "surftype must be min or max")
  end.

(** [truth[-1] - truth[0] + 1] for [truth = np.where(lagbool)[0]]. *)
Definition lagspan (confbool : mask) : result Z :=
  let lagbool := any_axis1 confbool in
  (* last true value - first true value *)
  let truth := where_ lagbool in
  last ← index truth (-1);
  first ← index truth 0;
  Ok (last - first + 1).

(** [lengthTrue]: the full cycle minus the longest run of False. *)
Definition lengthTrue (confbool : mask) : result Z :=
  let fastbool := any_axis0 confbool in
  (* search for the longest continuous line of False values *)
  let cyclic := fastbool ++ fastbool in
  m ← amax (diff (where_ cyclic));
  let lengthFalse := m - 1 in
  (* shortest line that contains ALL true values is then: *)
  Ok (Z.of_nat (length fastbool) - lengthFalse).

(** The errors of a confidence mask, given the grid steps. *)
Definition mask_errors (confbool : mask) (fast_step lag_step : F)
  : result (F * F) :=
  (* tlag error *)
  span ← lagspan confbool;
  let fdlag := fmul (fmul (of_int span) lag_step) quarter in
  (* fast error *)
  len ← lengthTrue confbool;
  let fdfast := fmul (fmul (of_int len) fast_step) quarter in
  Ok (fdfast, fdlag).

Definition get_errors (self : t) (surftype : pyval) : result (F * F) :=
  (* search interval steps *)
  l1 ← index (lags self) 1;
  l0 ← index (lags self) 0;
  let lag_step := fsub l1 l0 in
  d1 ← index (degs self) 1;
  d0 ← index (degs self) 0;
  let fast_step := fsub d1 d0 in
  (* Find nodes where we fall within the 95% confidence region *)
  confbool ← confidence_mask self surftype;
  mask_errors confbool fast_step lag_step.

End Defs.
End Measure.

(** ** More of data.py, pair.py, measure.py and eigenM.py *)

Module Data.
Section Defs.
Context `{Core}.

(** [Data.t()]: [np.arange(n) * delta] *)
Definition t (self : Pair.t) : list F :=
  map (fun i => fmul (of_int (Z.of_nat i)) (Pair.delta self))
      (seq 0 (Z.to_nat (Pair._nsamps self))).

(** Window start time. *)
Definition wbeg (self : Pair.t) : result F :=
  sbeg ← Window.start (Pair.window self) (Pair._nsamps self);
  Ok (fmul (of_int sbeg) (Pair.delta self)).

(** Window end time. *)
Definition wend (self : Pair.t) : result F :=
  send ← Window.end_ (Pair.window self) (Pair._nsamps self);
  Ok (fmul (of_int send) (Pair.delta self)).

(** Window centre. *)
Definition wcentre (self : Pair.t) : result F :=
  c ← Window.centre (Pair.window self) (Pair._nsamps self);
  Ok (fmul (of_int c) (Pair.delta self)).

Definition _centretime (self : Pair.t) : F :=
  fmul (of_int (Z.quot (size (Pair.x self)) 2)) (Pair.delta self).

End Defs.
End Data.

Module Methods.
Section Defs.
Context `{Core} {ns : Names}.

(** [Window.resize(self, resize)] *)
Definition Window_resize (self : Window.t) (resize : Z) : Window.t :=
  (* ensure resize is even *)
  Window.Build _ (Window.width self + even resize) (Window.offset self)
               (Window.tukey_ self).

(** [Pair.unsplit(self, fast, lag)]: the state of the object after the
    call; the call itself returns [None]. *)
Definition Pair_unsplit (self : Pair.t) (fast lag : F) : result Pair.t :=
  (* convert time shift to nsamples -- must be even *)
  let samps := time2samps lag (Pair.delta self) "even" in
  (* find appropriate rotation angle *)
  let origangs := Pair.cmpangs (Pair.cmpvecs self) in
  p ← Pair.rotateto self (of_int 0);
  (* apply splitting *)
  let xy := unsplit (flat (Pair.x p)) (flat (Pair.y p)) fast samps in
  let p := Pair.Build _ (Pair.class_ p) (array1 xy.1) (array1 xy.2)
                      (Pair.delta p) (Pair.geom p) (Pair.cmpvecs p)
                      (Pair.units p) (Pair.cmplabels p) (Pair.window p)
                      (Pair.eig p) in
  Pair.rotateto p origangs.1.

(** The method call [obj.unsplit(fast, lag)] on the value of a variable that
    holds a pair or [None]: the value of the call is always [None]. *)
Definition call_unsplit (obj : option Pair.t) (fast lag : F)
  : result (option Pair.t) :=
  match obj with
  | None => Raise (AttributeError "unsplit")
  | Some p => _ ← Pair_unsplit p fast lag; Ok None
  end.

(** [Measure.data_corr(self)], for data that is a pair; [fast] and [lag]
    are the attributes [self.fast] and [self.lag] of the measurement. *)
Definition Measure_data_corr (self : Measure.t) (fast lag : F)
  : result (option Pair.t) :=
  (* copy data *)
  data_corr ← Pair.copy (Measure.data self);
  let data_corr := Some data_corr in
  (* rcv side correction *)
  data_corr ← match Measure.rcvcorr self with
              | Some (deg, tlag) => call_unsplit data_corr deg tlag
              | None => Ok data_corr
              end;
  (* target layer correction *)
  data_corr ← call_unsplit data_corr fast lag;
  (* src side correction *)
  data_corr ← match Measure.srccorr self with
              | Some (deg, tlag) => call_unsplit data_corr deg tlag
              | None => Ok data_corr
              end;
  Ok data_corr.

End Defs.
End Methods.

Module EigenM.

(** The sample count of a correction in [EigenM.__init__]:
    [nsamps if nsamps%2==0 else nsamps + 1]. *)
Definition even_nsamps (nsamps : Z) : Z :=
  if nsamps mod 2 =? 0 then nsamps else nsamps + 1.

End EigenM.

(** ** A rational instance

    The theorems below hold for every instance of [Float], [Numpy], [Core]
    and [DataWindow].  To run the definitions on concrete inputs this module
    instantiates them over the rationals: exact arithmetic stands in for
    double precision, and low-order polynomials (exact at 0) for the
    trigonometric functions. *)

Module Rational.

Definition Qrint (q : Q) : Z :=
  let f := Qfloor q in
  match Qcompare (q - inject_Z f)%Q (1 # 2)%Q with
  | Lt => f
  | Gt => f + 1
  | Eq => if Z.even f then f else f + 1
  end.

Definition Qabs' (q : Q) : Q := if Qle_bool 0%Q q then q else Qred (- q)%Q.

#[export] Instance QFloat : Float := {|
  F := Q;
  of_int := inject_Z;
  fadd a b := Qred (a + b)%Q;
  fsub a b := Qred (a - b)%Q;
  fmul a b := Qred (a * b)%Q;
  fdiv a b := Qred (a / b)%Q;
  fneg a := Qred (- a)%Q;
  fleb := Qle_bool;
  feqb := Qeq_bool;
  quarter := (1 # 4)%Q;
  radians d := Qred (d * (355 # 113) / 180)%Q;
  fcos a := Qred (1 - a * a / 2)%Q;
  fsin a := Qred (a - a * a * a / 6)%Q;
|}.

(** [np.linspace]: [num] points from [start], the last one [stop] when
    [endpoint] holds. *)
Definition Qlinspace (endpoint : bool) (start stop num : Q) : result (list Q) :=
  let n := Qfloor num in
  if n <? 0 then Raise (ValueError "Number of samples must be non-negative")
  else
    let d := if endpoint then n - 1 else n in
    let step := if 0 <? d then ((stop - start) / inject_Z d)%Q else 0%Q in
    Ok (map (fun i => Qred (start + inject_Z (Z.of_nat i) * step)%Q)
            (seq 0 (Z.to_nat n))).

(** [np.allclose(m, np.eye(2), atol=1e-02)], with the default [rtol]. *)
Definition Qallclose_eye2 (m : list (list Q)) : bool :=
  let close (a b : Q) :=
    Qle_bool (Qabs' (a - b)%Q) ((1 # 100) + (1 # 100000) * Qabs' b)%Q in
  match m with
  | [[a; b]; [c; d]] =>
    close a 1%Q && close b 0%Q && close c 0%Q && close d 1%Q
  | _ => false
  end.

#[export] Instance QNumpy : Numpy := {|
  linspace := Qlinspace true;
  linspace_open := Qlinspace false;
  (* the rectangular window, which is the taper for alpha = 0 *)
  tukey M alpha := replicate (Z.to_nat M) 1%Q;
  allclose_eye2 := Qallclose_eye2;
|}.

(** Modelled from the spec: [core.rotate], absent from the sources; "applies
    the 2-D rotation matrix for angle_degrees to every sample pair". *)
Definition Qrotate (x y : list Q) (degrees : Q) : list Q * list Q :=
  let c := fcos (radians degrees) in
  let s := fsin (radians degrees) in
  (zip_with (fun a b => Qred (c * a + s * b)%Q) x y,
   zip_with (fun a b => Qred (- s * a + c * b)%Q) x y).

(** Modelled from the spec: [core.lag], absent from the sources; "shifts one
    component relative to the other by n_samples ... truncating". *)
Definition Qlag (x y : list Q) (samps : Z) : list Q * list Q :=
  let n := Z.to_nat (Z.abs samps) in
  if 0 <? samps then (drop n x, take (length y - n) y)
  else (take (length x - n) x, drop n y).

(** Modelled from the spec: [core.chop], absent from the sources; "extracts
    the sample range ...; fails ... if the window's start/end fall outside
    the trace". *)
Definition Qchop (x y : list Q) (s0 s1 : Z) : result (list Q * list Q) :=
  if (s0 <? 0) || (Z.of_nat (length x) <=? s1) || (s1 <? s0)
  then Raise (Exception "window out of range")
  else
    let cut (l : list Q) := take (Z.to_nat (s1 - s0 + 1)) (drop (Z.to_nat s0) l) in
    Ok (cut x, cut y).

(** Modelled from the spec: [core.unsplit], absent from the sources; "rotates
    to fast_angle, applies lag(-lag_samples), rotates back". *)
Definition Qunsplit (x y : list Q) (fast : Q) (samps : Z) : list Q * list Q :=
  let '(x1, y1) := Qrotate x y fast in
  let '(x2, y2) := Qlag x1 y1 (- samps) in
  Qrotate x2 y2 (Qred (- fast)%Q).

(** Modelled from the spec: [core.time2samps], absent from the sources; a time
    is "snapped to the nearest even sample count" in mode [even], and to
    the nearest sample count otherwise. *)
Definition Qtime2samps (t delta : Q) (mode : string) : Z :=
  let rat := (t / delta)%Q in
  if String.eqb mode "even" then 2 * Qrint (rat / 2)%Q
  else if String.eqb mode "odd" then 2 * Qrint (rat / 2 - (1 # 2))%Q + 1
  else Qrint rat.

(** Modelled from the spec: [core.samps2time], absent from the sources; lag
    times are "recomputed from the deduplicated sample counts". *)
Definition Qsamps2time (samps : Z) (delta : Q) : Q :=
  Qred (inject_Z samps * delta)%Q.

Definition Qdot (a b : list (list Q)) : list (list Q) :=
  map (fun row =>
         map (fun j => foldr (fun p acc => Qred (p.1 * nth j p.2 0 + acc)%Q) 0%Q
                             (zip row b))
             (seq 0 (length (nth 0 b []))))
      a.

#[export] Instance QCore : Core := {|
  rotate := Qrotate;
  lag := Qlag;
  chop := Qchop;
  unsplit := Qunsplit;
  time2samps := Qtime2samps;
  samps2time := Qsamps2time;
  odd x := 2 * Qrint (x / 2 - (1 # 2))%Q + 1;
  even z := 2 * Qrint (inject_Z z / 2)%Q;
  synth kw := Ok (array1 [0; 1; 0]%Q, array1 [0; 0; 0]%Q);
  dot := Qdot;
  (* exact on the coordinate axes *)
  cmpang c := match c with
              | [a; b] => Qred (90 * b / (Qabs' a + Qabs' b))%Q
              | _ => 0%Q
              end;
  str_round a := pretty.pretty (Qrint a);
|}.

(** Modelled from the spec: [Data._w0] and [Data._w1], absent from the
    sources; the "start sample" and "end sample" of the window. *)
#[export] Instance QDataWindow : DataWindow := {|
  _w0 d := let n := Pair._nsamps d in
           Z.quot n 2 + Window.offset (Pair.window d)
           - Z.quot (Window.width (Pair.window d)) 2;
  _w1 d := let n := Pair._nsamps d in
           Z.quot n 2 + Window.offset (Pair.window d)
           + Z.quot (Window.width (Pair.window d)) 2;
|}.

End Rational.

(** ** Definitions used to state the properties *)

(** The two errors of the range check of [Window.asarray]. *)
Definition range_error (e : exn) : Prop :=
  e = Exception "Window exceeds max range"
  \/ e = Exception "Window exceeds min range".

(** *** Confidence masks *)

(** Every row has [ncols] entries. *)
Definition wf_mask (m : mask) : Prop :=
  Forall (fun row => length row = ncols m) (rows m).

(** The entry of row [r] (a lag) and column [c] (an angle). *)
Definition node (m : mask) (r c : nat) : option bool :=
  row ← rows m !! r; row !! c.

Definition nonempty_mask (m : mask) : Prop :=
  exists r c, node m r c = Some true.

Definition empty_mask (m : mask) : Prop :=
  forall r c, node m r c <> Some true.

Definition full_mask (m : mask) : Prop :=
  rows m <> [] /\ ncols m <> 0%nat
  /\ forall r c b, node m r c = Some b -> b = true.

(** Column [i] lies on the cyclic arc of [len] columns that starts at column
    [k], on a cycle of [n] columns. *)
Definition on_arc (n k len i : Z) : Prop := (i - k) mod n < len.

(** The arc contains every True column of [b]. *)
Definition arc_covers (b : list bool) (k len : Z) : Prop :=
  forall i : nat, b !! i = Some true ->
    on_arc (Z.of_nat (length b)) k len (Z.of_nat i).

(** [len] is the length of the shortest cyclic arc that contains all True
    columns of [b]. *)
Definition shortest_arc (b : list bool) (len : Z) : Prop :=
  (exists k, 0 <= k < Z.of_nat (length b) /\ arc_covers b k len)
  /\ (forall k len', 0 <= k < Z.of_nat (length b) ->
         arc_covers b k len' -> len <= len').

(** [len] consecutive False entries of [l], from position [a]. *)
Definition false_run (l : list bool) (a len : Z) : Prop :=
  0 <= a /\ 0 <= len /\ a + len <= Z.of_nat (length l)
  /\ forall p, a <= p < a + len -> l !! Z.to_nat p = Some false.

(** [len] is the length of the longest contiguous run of False in [l]. *)
Definition longest_false_run (l : list bool) (len : Z) : Prop :=
  (exists a, false_run l a len)
  /\ (forall a len', false_run l a len' -> len' <= len).

(** Row [r] has a node inside the confidence region. *)
Definition true_row (m : mask) (r : nat) : Prop :=
  exists c, node m r c = Some true.

(** The window that the specification describes: the configured window
    shrunk by [shift/2] samples on each side. *)
Definition win_shrunk (s0 s1 shift : Z) : Z * Z :=
  let ds := Z.quot (Z.abs shift) 2 in
  (s0 + ds, s1 - ds).

(** The mask with every row rotated by [k] columns: the same region on an
    angle axis that starts [k] columns later. *)
Definition roll_columns (k : nat) (m : mask) : mask :=
  Mask (ncols m) (map (list.rotate k) (rows m)).

(** Every True node of [m] is a True node of [m']. *)
Definition submask (m m' : mask) : Prop :=
  forall r c, node m r c = Some true -> node m' r c = Some true.

(** A correction keyword that [Measure.__init__] accepts: absent, or a tuple
    of length 2. *)
Definition correction_ok `{Float} (kw : kwargs) (key : string) : Prop :=
  kw !! key = None \/ exists deg lag, kw !! key = Some (VTuple [deg; lag]).

(** A construction call: [Pair(x, y, **kw)] or [Measure(data, func, **kw)]. *)
Inductive ctor_call `{Float} : Type :=
| NewPair (x y : ndarray) (kw : kwargs)
| NewMeasure (data : Pair.t) (func : list F -> list F -> list F) (kw : kwargs).

Definition construct `{DataWindow} (c : ctor_call) : result unit :=
  match c with
  | NewPair x y kw => _ ← Pair.__init__ [VArray x; VArray y] kw; Ok tt
  | NewMeasure data func kw => _ ← Measure.__init__ data func kw; Ok tt
  end.

Definition nonpositive `{Float} (d : pyval) : Prop :=
  match d with
  | VInt z => z <= 0
  | VFloat f => fleb f (of_int 0) = true
  | _ => False
  end.

(** The malformed constructor arguments. *)
Inductive malformed `{Float} : ctor_call -> Prop :=
| mismatched_lengths x y kw :
    size x <> size y -> malformed (NewPair x y kw)
| even_length x y kw :
    size x mod 2 = 0 -> malformed (NewPair x y kw)
| nonpositive_delta x y kw d :
    kw !! "delta" = Some d -> nonpositive d -> malformed (NewPair x y kw)
| unknown_geom x y kw g :
    kw !! "geom" = Some g ->
    (forall s, g = VStr s -> s ∉ Pair.possible_geoms) ->
    malformed (NewPair x y kw)
| correction_not_tuple data func kw key v :
    key ∈ ["rcvcorr"; "srccorr"] -> kw !! key = Some v ->
    (forall t, v <> VTuple t) ->
    malformed (NewMeasure data func kw)
| correction_arity data func kw key t :
    key ∈ ["rcvcorr"; "srccorr"] -> kw !! key = Some (VTuple t) ->
    length t <> 2%nat ->
    malformed (NewMeasure data func kw).

(** ** Concrete inputs (over the rational instance) *)

Module Inputs.
Import Rational.

Definition x15 : list Q := [0; 0; 0; 0; 0; 1; 2; 3; 2; 1; 0; 0; 0; 0; 0]%Q.
Definition y15 : list Q := [0; 0; 0; 0; 0; 0; 0; 1; 2; 3; 2; 1; 0; 0; 0]%Q.

Definition kw_delta : kwargs := <["delta" := VFloat (1 # 10)%Q]> ∅.

(** The pair that [Pair(x15, y15, delta=0.1)] builds. *)
Definition pair15 : Pair.t :=
  Pair.Build _ "Pair" (array1 x15) (array1 y15) (1 # 10)%Q "geo"
             [[1; 0]; [0; 1]]%Q (VStr "s") ["North"; "East"]
             (Window.Build _ 5 0 None) None.

(** An objective: the energy of each component. *)
Definition energy (x y : list Q) : list Q :=
  [foldr (fun a acc => Qred (a * a + acc)%Q) 0%Q x;
   foldr (fun a acc => Qred (a * a + acc)%Q) 0%Q y].

(** [degs=np.array([0.]), lags=(0, 0.2, 2), rcvcorr=(0, 0.2),
    srccorr=(0, 0.2)] *)
Definition kw_search : kwargs :=
  <["degs" := VArray (array1 [0%Q])]>
  (<["lags" := VTuple [0; 2 # 10; 2]%Q]>
  (<["rcvcorr" := VTuple [0; 2 # 10]%Q]>
  (<["srccorr" := VTuple [0; 2 # 10]%Q]> ∅))).

(** The measurement that [Measure(pair15, energy, **kw_search)] builds. *)
Definition m15 : Measure.t :=
  Measure.Build _ pair15 energy [0%Q] [0; 1 # 5]%Q [0; 2]
                (Some (0, 1 # 5)%Q) (Some (0%Q, 2))
                (Some (0, 1 # 5)%Q) (Some (0%Q, 2))
                (VStr "Untitled") kw_search None None.

(** A measurement with an error surface on a grid of three lags (rows) and
    three angles (columns). *)
Definition with_surface (rows : list (list Q)) (level : Q) : Measure.t :=
  Measure.Build _ pair15 energy [0; 60; 120]%Q [0; 1 # 5; 2 # 5]%Q [0; 2; 4]
                None None None None (VStr "Untitled") ∅
                (Some (Surface _ 3 rows)) (Some level).

(** A flat surface: no node is below the level 1, every node is above it. *)
Definition m_flat : Measure.t :=
  with_surface [[5; 5; 5]; [5; 5; 5]; [5; 5; 5]]%Q 1%Q.

(** A minimum at node (0, 0) and a second basin at node (2, 2). *)
Definition m_basins : Measure.t :=
  with_surface [[1; 9; 9]; [9; 9; 9]; [9; 9; 2]]%Q (5 # 2)%Q.

(** Every entry of the surface is at least the entry of node [(r, c)]. *)
Definition surface_min_at (s : surface) (r c : nat) : bool :=
  match surf_rows s !! r ≫= (.!! c) with
  | Some v => forallb (forallb (fun u => Qle_bool v u)) (surf_rows s)
  | None => false
  end.

(** The mask restricted to column [c]. *)
Definition column_of (m : mask) (c : nat) : mask :=
  Mask 1 (map (fun row => match row !! c with
                          | Some b => [b]
                          | None => []
                          end) (rows m)).

(** Ninety angles, and a region on both sides of the seam: True in columns
    0, 1, 88 and 89. *)
Definition degs90 : list Q :=
  map (fun i => inject_Z (Z.of_nat i * 2 - 90)) (seq 0 90).

Definition seam_row : list Q :=
  [1; 1]%Q ++ replicate 86 0%Q ++ [1; 1]%Q.

Definition m_seam : Measure.t :=
  Measure.Build _ pair15 energy degs90 [0; 1 # 5]%Q [0; 2]
                None None None None (VStr "Untitled") ∅
                (Some (Surface _ 90 [seam_row; replicate 90 0%Q]))
                (Some (1 # 2)%Q).

(** The confidence masks of these surfaces. *)
Definition cm_flat_min : mask :=
  Mask 3 [[false; false; false]; [false; false; false]; [false; false; false]].

Definition cm_flat_max : mask :=
  Mask 3 [[true; true; true]; [true; true; true]; [true; true; true]].

Definition cm_basins : mask :=
  Mask 3 [[true; false; false]; [false; false; false]; [false; false; true]].

Definition cm_seam : mask :=
  Mask 90 [[true; true] ++ replicate 86 false ++ [true; true];
           replicate 90 false].

(** Requested lag times that fall on the same sample counts. *)
Definition kw_lags : kwargs :=
  <["lags" := VArray (array1 [0; 1 # 20; 1 # 10; 3 # 25; 3 # 10]%Q)]>
  (<["degs" := VInt 3]> ∅).

(** Two pairs that differ in the window only. *)
Definition pair15_wide : Pair.t :=
  Pair.with_window pair15 (Window.Build _ 7 1 (Some (1 # 2)%Q)).

(** A window of three samples, one sample right of the centre, and a window
    of seven samples. *)
Definition w3 : Window.t := Window.Build _ 3 1 None.

Definition w7 : Window.t := Window.Build _ 7 0 None.

(** The measurement that [Measure(pair15, energy, **kw_lags)] builds: no
    correction is configured. *)
Definition m_lags : Measure.t :=
  Measure.Build _ pair15 energy [-90; -30; 30]%Q [0; 1 # 5; 2 # 5]%Q [0; 2; 4]
                None None None None (VStr "Untitled") kw_lags None None.

(** [mode='rotpol', degs=np.array([]), lags=np.array([0.])]: an empty grid of
    angles, and no [pol]. *)
Definition kw_rotpol : kwargs :=
  <["mode" := VStr "rotpol"]>
  (<["degs" := VArray (array1 [])]>
  (<["lags" := VArray (array1 [0%Q])]> ∅)).

Definition m_rotpol : Measure.t :=
  Measure.Build _ pair15 energy [] [0%Q] [0]
                None None None None (VStr "Untitled") kw_rotpol None None.

(** [rcvcorr=None, srccorr=7]: both keywords present, neither value a
    correction. *)
Definition kw_present : kwargs :=
  <["rcvcorr" := VNone]> (<["srccorr" := VInt 7]> ∅).





(** A grid of one angle and two lags, with a surface that lies above the
    level 1 at both nodes. *)
Definition m_one_angle : Measure.t :=
  Measure.Build _ pair15 energy [0%Q] [0; 1 # 5]%Q [0; 2]
                None None None None (VStr "Untitled") ∅
                (Some (Surface _ 1 [[5]; [5]]%Q)) (Some 1%Q).

Definition cm_one_angle : mask := Mask 1 [[true]; [true]].

End Inputs.

(** * Properties *)

(** ** Window *)

Section WindowFacts.
Context `{Numpy} {ns : Names}.

Lemma Window_dict_dom (w : Window.t) :
  dom (Window.__dict__ w) = ({["width"; "offset"; "tukey"]} : gset string).
Proof.
  unfold Window.__dict__.
  rewrite !dom_insert_L, dom_empty_L.
  set_solver.
Qed.

(** C10.  [Window.__eq__] looks at the class and at the set of attribute
    names only.  Every window carries the attributes width, offset and
    tukey, so any two windows compare equal, whatever their widths, offsets
    and taper fractions are. *)
Theorem Window_eq_ignores_values (w1 w2 : Window.t) :
  dom (Window.__dict__ w1) = ({["width"; "offset"; "tukey"]} : gset string)
  /\ Window.__eq__ w1 w2 = true.
Proof.
  split; [apply Window_dict_dom |].
  unfold Window.__eq__, Window.__class__.
  rewrite String.eqb_refl. simpl.
  rewrite bool_decide_true; [reflexivity |].
  now rewrite !Window_dict_dom.
Qed.

(** Start and end sample of a window on a trace of odd length. *)
Lemma Window_start_end (w : Window.t) (N : Z) :
  N mod 2 = 1 ->
  Window.start w N = Ok (N ÷ 2 - Window.width w ÷ 2 + Window.offset w)
  /\ Window.end_ w N = Ok (N ÷ 2 + Window.width w ÷ 2 + Window.offset w).
Proof.
  intros HN. unfold Window.start, Window.end_.
  rewrite HN. simpl. split; f_equal; lia.
Qed.

(** For a positive width and length, the truncating divisions are floors. *)
Lemma Window_start_end_floor (w : Window.t) (N : Z) :
  N mod 2 = 1 -> 0 <= N -> 0 <= Window.width w ->
  Window.start w N = Ok (N / 2 - Window.width w / 2 + Window.offset w)
  /\ Window.end_ w N = Ok (N / 2 + Window.width w / 2 + Window.offset w).
Proof.
  intros HN Hpos Hw.
  rewrite <- !Z.quot_div_nonneg by lia.
  now apply Window_start_end.
Qed.

Lemma assign_slice_no_range_error (a : list F) (i j : Z) (v : list F) (e : exn) :
  Window.assign_slice a i j v = Raise e -> ~ range_error e.
Proof.
  unfold Window.assign_slice.
  repeat case_match; intros [= <-] [E | E]; discriminate E.
Qed.

Lemma signal_tukey_no_range_error (M : Z) (alpha : F) (e : exn) :
  Window.signal_tukey M alpha = Raise e -> ~ range_error e.
Proof.
  unfold Window.signal_tukey.
  destruct signal_bound; intros [= <-] [E | E]; discriminate E.
Qed.

(** The guard of [asarray]: a range error is raised exactly when the end
    sample is above [N] (not [N - 1]) or the start sample is below 0. *)
Lemma asarray_range_error_iff (w : Window.t) (N s e : Z) :
  Window.start w N = Ok s -> Window.end_ w N = Ok e ->
  (exists err, Window.asarray w N = Raise err /\ range_error err)
  <-> (N < e \/ s < 0).
Proof.
  intros Hs He. unfold Window.asarray. rewrite He, Hs. simpl.
  destruct (N <? e) eqn:E1; [| destruct (s <? 0) eqn:E2].
  - split; [intros _; left; lia |].
    intros _. eexists. split; [reflexivity | now left].
  - split; [intros _; right; lia |].
    intros _. eexists. split; [reflexivity | now right].
  - split; [| lia].
    intros (err & Herr & Hr). exfalso.
    destruct (Window.signal_tukey _ _) as [tk | e'] eqn:Etk; simpl in Herr.
    + now apply assign_slice_no_range_error in Herr.
    + injection Herr as <-.
      now apply signal_tukey_no_range_error in Etk.
Qed.

(** C6, at the window of width 3 and offset 2 on a trace of 5 samples: the
    start sample is 3 and the end sample is 5, above the last sample 4, yet
    the range check of [asarray] passes and execution goes on to the taper
    ([signal.tukey], whose lookup raises NameError in the sources as they
    stand) and to the assignment of the taper. *)
Theorem asarray_end_equal_samps :
  let w := Window.Build _ 3 2 None in
  Window.start w 5 = Ok 3
  /\ Window.end_ w 5 = Ok 5
  /\ 5 - 1 < 5
  /\ Window.asarray w 5
     = (tk ← Window.signal_tukey 3 (of_int 0);
        Window.assign_slice (replicate 5%nat (of_int 0)) 3 6 tk)
  /\ (forall err, Window.asarray w 5 = Raise err -> ~ range_error err).
Proof.
  cbn zeta.
  assert (E : Window.asarray (Window.Build _ 3 2 None) 5
     = (tk ← Window.signal_tukey 3 (of_int 0);
        Window.assign_slice (replicate 5%nat (of_int 0)) 3 6 tk))
    by reflexivity.
  repeat split; try reflexivity; try exact E.
  intros err Herr. rewrite E in Herr.
  destruct (Window.signal_tukey 3 (of_int 0)) as [tk | e'] eqn:Etk;
    simpl in Herr.
  - now apply assign_slice_no_range_error in Herr.
  - injection Herr as <-. now apply signal_tukey_no_range_error in Etk.
Qed.

End WindowFacts.

(** ** The result monad and list comprehensions *)

Section MapM.
Context {A B C : Type}.

Lemma mapM_map (f : B -> result C) (g : A -> B) (l : list A) :
  mapM f (map g l) = mapM (fun a => f (g a)) l.
Proof.
  induction l as [| a l IH]; [reflexivity |].
  simpl. now rewrite IH.
Qed.

Lemma mapM_ext (f g : A -> result B) (l : list A) :
  (forall a, a ∈ l -> f a = g a) -> mapM f l = mapM g l.
Proof.
  induction l as [| a l IH]; intros Hfg; [reflexivity |].
  simpl. rewrite Hfg by left.
  rewrite IH; [reflexivity |].
  intros b Hb. apply Hfg. now right.
Qed.

Lemma mapM_Ok_lookup (f : A -> result B) (l : list A) (out : list B) :
  mapM f l = Ok out ->
  length out = length l
  /\ forall (i : nat) a, l !! i = Some a ->
       exists b, out !! i = Some b /\ f a = Ok b.
Proof.
  revert out. induction l as [| a l IH]; intros out; simpl.
  - intros [= <-]. split; [reflexivity |]. intros i a Hi. discriminate Hi.
  - destruct (f a) as [b | e] eqn:Hfa; simpl; [| discriminate].
    destruct (mapM f l) as [bs | e] eqn:Hl; simpl; [| discriminate].
    intros [= <-]. destruct (IH bs eq_refl) as [Hlen Hnth].
    split; [simpl; now rewrite Hlen |].
    intros [| i] a' Hi; simpl in *.
    + injection Hi as <-. eauto.
    + now apply Hnth.
Qed.

Lemma mapM_all_Ok (f : A -> result B) (g : A -> B) (l : list A) :
  (forall a, a ∈ l -> f a = Ok (g a)) -> mapM f l = Ok (map g l).
Proof.
  induction l as [| a l IH]; intros Hf; [reflexivity |].
  simpl. rewrite Hf by left. simpl.
  rewrite IH; [reflexivity |].
  intros b Hb. apply Hf. now right.
Qed.

End MapM.

(** ** The grid search *)

Section GridSearch.
Context `{DataWindow} {ns : Names}.

Lemma win_bounds (s0 s1 shift : Z) :
  Measure.win s0 s1 shift = (s0 - Z.abs shift ÷ 2, s1 - Z.abs shift ÷ 2).
Proof. reflexivity. Qed.

(** A copy that returns is a snapshot of the pair. *)
Lemma copy_Ok (p q : Pair.t) : Pair.copy p = Ok q -> q = p.
Proof.
  unfold Pair.copy. destruct io_bound; [| discriminate]. now intros [= <-].
Qed.

Lemma window_bounds_Ok (d : Pair.t) (s0 s1 : Z) :
  Measure.window_bounds d = Ok (s0, s1) -> s0 = _w0 d /\ s1 = _w1 d.
Proof.
  unfold Measure.window_bounds. destruct w0_w1_bound; [| discriminate].
  now intros [= <- <-].
Qed.

(** The search, with the list of pre-rotated traces fused into the loops. *)
Lemma gridsearch_unfold (self : Measure.t) (kw : kwargs) :
  Measure.gridsearch self kw =
    (_ ← Pair.copy (Measure.data self);
     c ← Pair.rotateto (Measure.data self) (of_int 0);
     _ ← Measure.window_bounds (Measure.data self);
     xy ← (if has_key kw "rcvcorr" then
             match Measure.__rcvcorr self with
             | Some (rcvphi, rcvlag) =>
               Ok (unsplit (flat (Pair.x c)) (flat (Pair.y c)) rcvphi rcvlag)
             | None => Raise (AttributeError "_Measure__rcvcorr")
             end
           else Ok (flat (Pair.x c), flat (Pair.y c)));
     srccorr ← Measure.srccorr_closure self kw;
     mapM (fun ang =>
             mapM (fun shift =>
                     Measure.getout self
                       (Measure.win (_w0 (Measure.data self))
                                    (_w1 (Measure.data self)))
                       srccorr (Measure.rotpol_closure kw)
                       (rotate xy.1 xy.2 ang).1 (rotate xy.1 xy.2 ang).2
                       ang shift)
                  (Measure.slags self))
          (Measure.degs self)).
Proof.
  unfold Measure.gridsearch.
  destruct (Pair.copy (Measure.data self)) as [cp | e] eqn:Ecp;
    [| reflexivity]. simpl.
  apply copy_Ok in Ecp as ->.
  destruct (Pair.rotateto _ _) as [c | e]; [| reflexivity]. simpl.
  destruct (Measure.window_bounds _) as [[s0 s1] | e] eqn:Ewb;
    [| reflexivity]. simpl.
  apply window_bounds_Ok in Ewb as [-> ->].
  destruct (if has_key kw "rcvcorr" then _ else _) as [[x y] | e];
    [| reflexivity]. simpl.
  destruct (Measure.srccorr_closure self kw) as [sc | e]; [| reflexivity].
  simpl. now rewrite mapM_map.
Qed.

(** C1 (amended).  At every node of the search the inner loop removes the
    lag, applies the source correction and chops the pair to the window
    [(s0 - d, s1 - d)], where [d = int(|shift|/2)] and [(s0, s1)] are the
    bounds of the configured window: both bounds move down by [d], the
    width of the window is unchanged, and the adjustment is the same for
    [shift] and [- shift]. *)
Theorem getout_window_recentred (self : Measure.t) (kw : kwargs)
    (s0 s1 : Z)
    (srccorr : list F -> list F -> F -> list F * list F)
    (rotpol : list F -> list F -> F -> result (list F * list F))
    (x y : list F) (ang : F) (shift : Z) :
  let d := Z.abs shift ÷ 2 in
  Measure.win s0 s1 shift = (s0 - d, s1 - d)
  /\ (Measure.win s0 s1 shift).2 - (Measure.win s0 s1 shift).1 = s1 - s0
  /\ Measure.win s0 s1 (- shift) = Measure.win s0 s1 shift
  /\ Measure.getout self (Measure.win s0 s1) srccorr rotpol x y ang shift =
       (let lagged := lag x y (- shift) in
        let corrected := srccorr lagged.1 lagged.2 ang in
        chopped ← chop corrected.1 corrected.2 (s0 - d) (s1 - d);
        rotated ← rotpol chopped.1 chopped.2 ang;
        Ok (Measure.func self rotated.1 rotated.2))
  /\ (forall out (i j : nat) a s,
        Measure.gridsearch self kw = Ok out ->
        Measure.degs self !! i = Some a ->
        Measure.slags self !! j = Some s ->
        exists (xs ys xc yc : list F) (row : list (list F)) (node : list F),
          out !! i = Some row /\ row !! j = Some node
          /\ chop xs ys (_w0 (Measure.data self) - Z.abs s ÷ 2)
                        (_w1 (Measure.data self) - Z.abs s ÷ 2)
             = Ok (xc, yc)
          /\ Ok node = (rotated ← Measure.rotpol_closure kw xc yc a;
                        Ok (Measure.func self rotated.1 rotated.2))).
Proof.
  cbn zeta. split; [reflexivity |].
  split; [simpl; lia |].
  split; [unfold Measure.win; now rewrite Z.abs_opp |].
  split.
  - unfold Measure.getout. simpl.
    destruct (lag x y (- shift)) as [x1 y1]. simpl.
    destruct (srccorr x1 y1 ang) as [x2 y2]. simpl.
    destruct (chop x2 y2 _ _) as [[x3 y3] | e]; [| reflexivity]. simpl.
    destruct (rotpol x3 y3 ang) as [[x4 y4] | e]; reflexivity.
  - intros out i j a s Hout Ha Hs.
    rewrite gridsearch_unfold in Hout.
    destruct (Pair.copy _) as [cp | e]; [| discriminate]. simpl in Hout.
    destruct (Pair.rotateto _ _) as [c | e]; [| discriminate]. simpl in Hout.
    destruct (Measure.window_bounds _) as [wb | e]; [| discriminate].
    simpl in Hout.
    destruct (if has_key kw "rcvcorr" then _ else _) as [[x0 y0] | e];
      [| discriminate]. simpl in Hout.
    destruct (Measure.srccorr_closure self kw) as [sc | e]; [| discriminate].
    simpl in Hout.
    apply mapM_Ok_lookup in Hout as [_ Hrow].
    destruct (Hrow i a Ha) as (row & Hi & Hr).
    apply mapM_Ok_lookup in Hr as [_ Hnode].
    destruct (Hnode j s Hs) as (node & Hj & Hn).
    unfold Measure.getout in Hn.
    destruct (lag _ _ (- s)) as [x1 y1].
    destruct (sc x1 y1 a) as [x2 y2].
    simpl in Hn.
    destruct (chop x2 y2 _ _) as [[x3 y3] | e] eqn:Hc; [| discriminate].
    simpl in Hn.
    exists x2, y2, x3, y3, row, node.
    repeat split; try assumption.
    destruct (Measure.rotpol_closure kw x3 y3 a) as [[x4 y4] | e];
      [| discriminate].
    simpl in *. now injection Hn as <-.
Qed.

End GridSearch.

(** ** Construction of a measurement and the corrections of the search *)

Section Corrections.
Context `{DataWindow} {ns : Names}.

Lemma parse_corr_Ok (data : Pair.t) (kw : kwargs) (key : string) a b :
  Measure.parse_corr data kw key = Ok (a, b) ->
  (kw !! key = None /\ a = None /\ b = None)
  \/ (exists deg lag,
        kw !! key = Some (VTuple [deg; lag])
        /\ a = Some (deg, time2samps lag (Pair.delta data) "even")
        /\ b = Some (deg, fmul (of_int (time2samps lag (Pair.delta data) "even"))
                               (Pair.delta data))).
Proof.
  unfold Measure.parse_corr.
  destruct (kw !! key) as [v |]; [| intros [= <- <-]; now left].
  destruct v as [| | | | t | | |]; try discriminate.
  destruct t as [| deg [| lag [| ? ?]]]; try discriminate.
  intros [= <- <-]. right. now exists deg, lag.
Qed.

Lemma init_fields (data : Pair.t) (func : list F -> list F -> list F)
    (kw : kwargs) (m : Measure.t) :
  Measure.__init__ data func kw = Ok m ->
  Measure.data m = data /\ Measure.func m = func
  /\ Measure._get_degs_lags_and_slags data kw
     = Ok (Measure.degs m, Measure.lags m, Measure.slags m)
  /\ Measure.parse_corr data kw "rcvcorr"
     = Ok (Measure.__rcvcorr m, Measure.rcvcorr m)
  /\ Measure.parse_corr data kw "srccorr"
     = Ok (Measure.__srccorr m, Measure.srccorr m).
Proof.
  unfold Measure.__init__.
  destruct (Measure._get_degs_lags_and_slags data kw) as [[[dg lg] sl] | e];
    [| discriminate]. simpl.
  destruct (Measure.parse_corr data kw "rcvcorr") as [[r_ r] | e];
    [| discriminate]. simpl.
  destruct (Measure.parse_corr data kw "srccorr") as [[s_ s] | e];
    [| discriminate]. simpl.
  intros [= <-]. simpl. repeat split.
Qed.


(** The search tests its own keyword arguments: called without the
    keyword, it leaves the stored correction alone. *)
Lemma gridsearch_without_keywords (m : Measure.t) :
  Measure.gridsearch m ∅ =
    (_ ← Pair.copy (Measure.data m);
     c ← Pair.rotateto (Measure.data m) (of_int 0);
     _ ← Measure.window_bounds (Measure.data m);
     mapM (fun ang =>
       mapM (fun shift =>
         let rotated := rotate (flat (Pair.x c)) (flat (Pair.y c)) ang in
         let lagged := lag rotated.1 rotated.2 (- shift) in
         chopped ← chop lagged.1 lagged.2
                        (_w0 (Measure.data m) - Z.abs shift ÷ 2)
                        (_w1 (Measure.data m) - Z.abs shift ÷ 2);
         Ok (Measure.func m chopped.1 chopped.2))
         (Measure.slags m))
       (Measure.degs m)).
Proof.
  rewrite gridsearch_unfold.
  destruct (Pair.copy _) as [cp | e]; [| reflexivity]. simpl.
  destruct (Pair.rotateto _ _) as [c | e]; [| reflexivity]. simpl.
  destruct (Measure.window_bounds _) as [wb | e]; [| reflexivity]. simpl.
  apply mapM_ext. intros ang _.
  apply mapM_ext. intros shift _.
  unfold Measure.getout.
  destruct (rotate _ _ ang) as [xr yr]. simpl.
  destruct (lag xr yr (- shift)) as [xl yl]. simpl.
  destruct (chop xl yl _ _) as [[xc yc] | e]; reflexivity.
Qed.

(** The sources as they stand: the search stops at [self.data.copy()]. *)
Lemma gridsearch_io_unbound (m : Measure.t) (kw : kwargs) :
  io_bound = false -> Measure.gridsearch m kw = Raise (NameError "io").
Proof.
  intros Hio. unfold Measure.gridsearch, Pair.copy. now rewrite Hio.
Qed.

End Corrections.

(** ** Malformed constructor arguments *)

Section Constructors.
Context `{DataWindow} {ns : Names}.

Lemma set_delta_nonpositive (d : pyval) :
  nonpositive d -> exists e, Pair.set_delta d = Raise e.
Proof.
  destruct d; simpl; try contradiction.
  - intros Hz. apply Z.leb_le in Hz. rewrite Hz. eauto.
  - intros ->. eauto.
Qed.

Lemma set_geom_unknown (g : pyval) :
  (forall s, g = VStr s -> s ∉ Pair.possible_geoms) ->
  exists e, Pair.set_geom g = Raise e.
Proof.
  intros Hg. destruct g; simpl; eauto.
  rewrite bool_decide_false; eauto.
Qed.

Lemma parse_corr_not_tuple (data : Pair.t) (kw : kwargs) (key : string) v :
  kw !! key = Some v -> (forall t, v <> VTuple t) ->
  exists e, Measure.parse_corr data kw key = Raise e.
Proof.
  intros Hk Hv. unfold Measure.parse_corr. rewrite Hk.
  destruct v; eauto. now destruct (Hv t).
Qed.

Lemma parse_corr_arity (data : Pair.t) (kw : kwargs) (key : string) t :
  kw !! key = Some (VTuple t) -> length t <> 2%nat ->
  exists e, Measure.parse_corr data kw key = Raise e.
Proof.
  intros Hk Ht. unfold Measure.parse_corr. rewrite Hk.
  destruct t as [| a [| b [| c t]]]; eauto. now destruct Ht.
Qed.

Lemma init_raises_of_parse_corr (data : Pair.t) func (kw : kwargs) key :
  key ∈ ["rcvcorr"; "srccorr"] ->
  (exists e, Measure.parse_corr data kw key = Raise e) ->
  exists e, Measure.__init__ data func kw = Raise e.
Proof.
  intros Hkey [e He]. unfold Measure.__init__.
  destruct (Measure._get_degs_lags_and_slags data kw) as [[[dg lg] sl] | e'];
    [| eauto]. simpl.
  apply elem_of_cons in Hkey as [-> | Hkey].
  - rewrite He. eauto.
  - apply list_elem_of_singleton in Hkey as ->.
    destruct (Measure.parse_corr data kw "rcvcorr") as [[r_ r] | e'];
      [| eauto]. simpl.
    rewrite He. eauto.
Qed.

(** C8.  A construction call with malformed arguments (traces of different
    lengths, a trace of even length, a sampling interval that is not
    positive, an unknown geometry, a correction that is not a tuple or not of
    length 2) raises an exception. *)
Theorem malformed_construction_raises (c : ctor_call) :
  malformed c -> exists e, construct c = Raise e.
Proof.
  intros Hc.
  assert (Hlift : forall A (r : result A),
            (exists e, r = Raise e) ->
            exists e, (_ ← r; Ok tt) = Raise e).
  { intros A r [e ->]. eauto. }
  destruct Hc as [x y kw Hsz | x y kw Hev | x y kw d Hd Hnp
                 | x y kw g Hg Hun | data func kw key v Hkey Hv Hnt
                 | data func kw key t Hkey Hv Hlen];
    simpl; apply Hlift.
  - unfold Pair.Data__init__.
    destruct (kw !! "delta") as [d |]; [| eauto].
    destruct (Pair.set_delta d) as [dl | e]; [| eauto]. simpl.
    destruct (ndim x =? 1); simpl; [| eauto].
    destruct (size x mod 2 =? 0); [eauto |].
    destruct (size x =? size y) eqn:E; simpl; [| eauto].
    apply Z.eqb_eq in E. contradiction.
  - unfold Pair.Data__init__.
    destruct (kw !! "delta") as [d |]; [| eauto].
    destruct (Pair.set_delta d) as [dl | e]; [| eauto]. simpl.
    destruct (ndim x =? 1); simpl; [| eauto].
    rewrite Hev. simpl. eauto.
  - unfold Pair.Data__init__. rewrite Hd.
    destruct (set_delta_nonpositive d Hnp) as [e ->]. eauto.
  - unfold Pair.Data__init__.
    destruct (kw !! "delta") as [d |]; [| eauto].
    destruct (Pair.set_delta d) as [dl | e]; [| eauto]. simpl.
    destruct (ndim x =? 1); simpl; [| eauto].
    destruct (size x mod 2 =? 0); [eauto |].
    destruct (size x =? size y); simpl; [| eauto].
    rewrite Hg.
    destruct (set_geom_unknown g Hun) as [e ->]. eauto.
  - apply init_raises_of_parse_corr with key; [assumption |].
    now apply parse_corr_not_tuple with v.
  - apply init_raises_of_parse_corr with key; [assumption |].
    now apply parse_corr_arity with t.
Qed.

End Constructors.

(** ** The lag grid *)

Section Unique.

Lemma insert_unique_elem (z x : Z) (l : list Z) :
  x ∈ insert_unique z l <-> x = z \/ x ∈ l.
Proof.
  induction l as [| h t IH]; simpl.
  - rewrite list_elem_of_singleton. rewrite elem_of_nil. tauto.
  - destruct (z <? h) eqn:E1; [| destruct (z =? h) eqn:E2].
    + now rewrite elem_of_cons.
    + apply Z.eqb_eq in E2 as ->. rewrite elem_of_cons. tauto.
    + rewrite !elem_of_cons, IH. tauto.
Qed.

Lemma insert_unique_sorted (z : Z) (l : list Z) :
  StronglySorted Z.lt l -> StronglySorted Z.lt (insert_unique z l).
Proof.
  induction 1 as [| h t Hs IH Hh]; simpl.
  - repeat constructor.
  - destruct (z <? h) eqn:E1; [| destruct (z =? h) eqn:E2].
    + apply Z.ltb_lt in E1. constructor; [now constructor |].
      constructor; [assumption |].
      eapply Forall_impl; [exact Hh |]. simpl. intros; lia.
    + now constructor.
    + apply Z.ltb_ge in E1. apply Z.eqb_neq in E2.
      constructor; [assumption |].
      apply Forall_forall. intros x Hx.
      apply insert_unique_elem in Hx as [-> | Hx]; [lia |].
      rewrite Forall_forall in Hh. now apply Hh.
Qed.

Lemma unique_elem (x : Z) (l : list Z) : x ∈ unique l <-> x ∈ l.
Proof.
  unfold unique. induction l as [| h t IH]; simpl; [reflexivity |].
  rewrite insert_unique_elem, elem_of_cons, IH. reflexivity.
Qed.

Lemma unique_sorted (l : list Z) : StronglySorted Z.lt (unique l).
Proof.
  unfold unique. induction l as [| h t IH]; simpl; [constructor |].
  now apply insert_unique_sorted.
Qed.

Lemma sorted_lt_NoDup (l : list Z) : StronglySorted Z.lt l -> NoDup l.
Proof.
  induction 1 as [| h t Hs IH Hh]; constructor; [| assumption].
  intros Hin. rewrite Forall_forall in Hh. specialize (Hh h Hin). lia.
Qed.

End Unique.

Section LagGrid.
Context `{DataWindow} {ns : Names}.

(** The requested lag times of an explicit array and of the tuple forms. *)
Lemma parse_lags_request (data : Pair.t) (kw : kwargs) :
  (forall a, kw !! "lags" = Some (VArray a) ->
     Measure._parse_lags data kw = Ok (flat a))
  /\ (forall stop, kw !! "lags" = Some (VTuple [stop]) ->
        Measure._parse_lags data kw = linspace (of_int 0) stop (of_int 40))
  /\ (forall stop num, kw !! "lags" = Some (VTuple [stop; num]) ->
        Measure._parse_lags data kw = linspace (of_int 0) stop num)
  /\ (forall start stop num, kw !! "lags" = Some (VTuple [start; stop; num]) ->
        Measure._parse_lags data kw = linspace start stop num).
Proof.
  unfold Measure._parse_lags. repeat split; intros *; intros ->; reflexivity.
Qed.

Lemma parse_lags_same_request (data : Pair.t) (kw kw' : kwargs) :
  kw' !! "lags" = kw !! "lags" ->
  Measure._parse_lags data kw' = Measure._parse_lags data kw.
Proof. intros E. unfold Measure._parse_lags. now rewrite E. Qed.

Lemma parse_degs_same_request (kw kw' : kwargs) :
  kw' !! "degs" = kw !! "degs" ->
  Measure._parse_degs kw' = Measure._parse_degs kw.
Proof. intros E. unfold Measure._parse_degs. now rewrite E. Qed.

(** C5.  The sample-lag grid is the sorted list of the distinct sample
    counts of the requested lag times, each an even integer; the reported
    lag times are these sample counts times delta; the same request gives
    the same grids.  What [core.time2samps] and [core.samps2time] return is
    taken from the specification (the first two hypotheses). *)
Theorem lag_grid_snapped_and_deduplicated (data : Pair.t) (kw : kwargs)
    (requested degs : list F) :
  (forall t d, Z.even (time2samps t d "even") = true) ->
  (forall s d, samps2time s d = fmul (of_int s) d) ->
  Measure._parse_lags data kw = Ok requested ->
  Measure._parse_degs kw = Ok degs ->
  exists lags slags,
    Measure._get_degs_lags_and_slags data kw = Ok (degs, lags, slags)
    /\ (forall a, kw !! "lags" = Some (VArray a) -> requested = flat a)
    /\ (forall s, s ∈ slags <->
          exists t, t ∈ requested /\ time2samps t (Pair.delta data) "even" = s)
    /\ StronglySorted Z.lt slags
    /\ NoDup slags
    /\ Forall (fun s => Z.even s = true) slags
    /\ lags = map (fun s => fmul (of_int s) (Pair.delta data)) slags
    /\ (forall kw', kw' !! "lags" = kw !! "lags" ->
                    kw' !! "degs" = kw !! "degs" ->
          Measure._get_degs_lags_and_slags data kw' = Ok (degs, lags, slags)).
Proof.
  intros Heven Htime Hlags Hdegs.
  set (slags := unique (map (fun t => time2samps t (Pair.delta data) "even")
                            requested)).
  exists (map (fun s => fmul (of_int s) (Pair.delta data)) slags), slags.
  assert (Hrun : Measure._get_degs_lags_and_slags data kw
                 = Ok (degs, map (fun s => fmul (of_int s) (Pair.delta data))
                                 slags, slags)).
  { unfold Measure._get_degs_lags_and_slags. rewrite Hlags. simpl.
    rewrite Hdegs. simpl. fold slags. do 3 f_equal.
    apply map_ext. intros s. apply Htime. }
  assert (Hin : forall s, s ∈ slags <->
            exists t, t ∈ requested
                      /\ time2samps t (Pair.delta data) "even" = s).
  { intros s. unfold slags. rewrite unique_elem, list_elem_of_fmap.
    split; intros (t & Ht1 & Ht2); exists t; auto. }
  split; [exact Hrun |].
  split.
  { intros a Ha. unfold Measure._parse_lags in Hlags. rewrite Ha in Hlags.
    now injection Hlags as <-. }
  split; [exact Hin |].
  split; [apply unique_sorted |].
  split; [apply sorted_lt_NoDup, unique_sorted |].
  split.
  { apply Forall_forall. intros s Hs.
    apply Hin in Hs as (t & _ & <-). apply Heven. }
  split; [reflexivity |].
  intros kw' El Ed.
  unfold Measure._get_degs_lags_and_slags.
  rewrite (parse_lags_same_request data kw kw' El), Hlags. simpl.
  rewrite (parse_degs_same_request kw kw' Ed), Hdegs. simpl.
  fold slags. do 3 f_equal.
  apply map_ext. intros s. apply Htime.
Qed.

End LagGrid.

(** ** Index arithmetic of the error bars *)

Section Where.

Lemma lookup_cons_Z (h : bool) (t : list bool) (k : Z) :
  0 <= k ->
  (h :: t) !! Z.to_nat k
  = if k =? 0 then Some h else t !! Z.to_nat (k - 1).
Proof.
  intros Hk. destruct (k =? 0) eqn:E.
  - apply Z.eqb_eq in E as ->. reflexivity.
  - apply Z.eqb_neq in E.
    replace (Z.to_nat k) with (S (Z.to_nat (k - 1))) by lia. reflexivity.
Qed.

Lemma where_from_elem (s z : Z) (b : list bool) :
  z ∈ where_from s b <-> s <= z /\ b !! Z.to_nat (z - s) = Some true.
Proof.
  revert s. induction b as [| h t IH]; intros s; simpl.
  - rewrite elem_of_nil. split; [tauto | intros [_ E]; discriminate E].
  - assert (Htail : z ∈ where_from (s + 1) t
                    <-> s < z /\ t !! Z.to_nat (z - s - 1) = Some true).
    { rewrite IH. replace (z - (s + 1)) with (z - s - 1) by lia.
      split; intros [? ?]; split; auto; lia. }
    assert (Hhead : s <= z ->
              (h :: t) !! Z.to_nat (z - s)
              = if z - s =? 0 then Some h else t !! Z.to_nat (z - s - 1)).
    { intros Hz. apply lookup_cons_Z. lia. }
    destruct h.
    + rewrite elem_of_cons, Htail. split.
      * intros [-> | [Hz Ht]].
        -- split; [lia |]. rewrite Hhead by lia. now rewrite Z.sub_diag.
        -- split; [lia |]. rewrite Hhead by lia.
           destruct (z - s =? 0) eqn:E; [reflexivity | exact Ht].
      * intros [Hz Hl]. rewrite Hhead in Hl by lia.
        destruct (z - s =? 0) eqn:E.
        -- left. apply Z.eqb_eq in E. lia.
        -- right. apply Z.eqb_neq in E. split; [lia | exact Hl].
    + rewrite Htail. split.
      * intros [Hz Ht]. split; [lia |]. rewrite Hhead by lia.
        destruct (z - s =? 0) eqn:E; [apply Z.eqb_eq in E; lia | exact Ht].
      * intros [Hz Hl]. rewrite Hhead in Hl by lia.
        destruct (z - s =? 0) eqn:E; [discriminate Hl |].
        apply Z.eqb_neq in E. split; [lia | exact Hl].
Qed.

Lemma where_elem (z : Z) (b : list bool) :
  z ∈ where_ b <-> 0 <= z /\ b !! Z.to_nat z = Some true.
Proof.
  unfold where_. rewrite where_from_elem. now rewrite Z.sub_0_r.
Qed.

Lemma where_from_sorted (s : Z) (b : list bool) :
  StronglySorted Z.lt (where_from s b).
Proof.
  revert s. induction b as [| h t IH]; intros s; simpl; [constructor |].
  destruct h; [| apply IH].
  constructor; [apply IH |].
  apply Forall_forall. intros z Hz. apply where_from_elem in Hz. lia.
Qed.

Lemma where_sorted (b : list bool) : StronglySorted Z.lt (where_ b).
Proof. apply where_from_sorted. Qed.

Lemma where_from_app (s : Z) (b1 b2 : list bool) :
  where_from s (b1 ++ b2)
  = where_from s b1 ++ where_from (s + Z.of_nat (length b1)) b2.
Proof.
  revert s. induction b1 as [| h t IH]; intros s; simpl.
  - now rewrite Z.add_0_r.
  - rewrite IH.
    replace (s + 1 + Z.of_nat (length t)) with (s + Z.pos (Pos.of_succ_nat (length t)))
      by lia.
    now destruct h.
Qed.

(** Position [p] of the doubled mask shows column [p mod n]. *)
Lemma lookup_doubled (b : list bool) (p : Z) :
  0 <= p < 2 * Z.of_nat (length b) ->
  (b ++ b) !! Z.to_nat p = b !! Z.to_nat (p mod Z.of_nat (length b)).
Proof.
  intros Hp. set (n := Z.of_nat (length b)) in *.
  destruct (Z_lt_le_dec p n) as [Hlt | Hge].
  - rewrite Z.mod_small by lia. apply lookup_app_l. lia.
  - rewrite lookup_app_r by lia.
    replace (p mod n) with (p - n).
    + f_equal. lia.
    + apply Z.mod_unique with 1; lia.
Qed.

Lemma where_doubled_elem (b : list bool) (p : Z) :
  p ∈ where_ (b ++ b)
  <-> 0 <= p < 2 * Z.of_nat (length b)
      /\ b !! Z.to_nat (p mod Z.of_nat (length b)) = Some true.
Proof.
  rewrite where_elem. split.
  - intros [Hp Hl].
    assert (Hlt : (Z.to_nat p < length (b ++ b))%nat)
      by (eapply lookup_lt_Some; exact Hl).
    rewrite length_app in Hlt.
    split; [lia |]. rewrite <- lookup_doubled by lia. exact Hl.
  - intros [Hp Hl]. split; [lia |]. rewrite lookup_doubled by lia. exact Hl.
Qed.

End Where.

Section Gaps.

Lemma diff_elem (l : list Z) (d : Z) :
  d ∈ diff l <-> exists l1 u v l2, l = l1 ++ u :: v :: l2 /\ d = v - u.
Proof.
  induction l as [| a [| b t] IH].
  - simpl. rewrite elem_of_nil. split; [tauto |].
    intros (l1 & u & v & l2 & E & _). now destruct l1.
  - simpl. rewrite elem_of_nil. split; [tauto |].
    intros (l1 & u & v & l2 & E & _).
    destruct l1 as [| ? [| ? ?]]; discriminate E.
  - change (diff (a :: b :: t)) with ((b - a) :: diff (b :: t)).
    rewrite elem_of_cons, IH. split.
    + intros [-> | (l1 & u & v & l2 & E & ->)].
      * now exists [], a, b, t.
      * exists (a :: l1), u, v, l2. split; [| reflexivity].
        simpl. now rewrite E.
    + intros (l1 & u & v & l2 & E & ->).
      destruct l1 as [| x l1]; simpl in E.
      * injection E as -> -> ->. now left.
      * injection E as -> E. right. now exists l1, u, v, l2.
Qed.

Lemma sorted_consecutive (l1 l2 : list Z) (u v z : Z) :
  StronglySorted Z.lt (l1 ++ u :: v :: l2) ->
  z ∈ l1 ++ u :: v :: l2 -> u < v /\ (z <= u \/ v <= z).
Proof.
  revert z. induction l1 as [| a l1 IH]; simpl; intros z Hs Hz.
  - apply StronglySorted_inv in Hs as [Hs Hu].
    apply StronglySorted_inv in Hs as [_ Hv].
    rewrite Forall_forall in Hu, Hv.
    assert (u < v) by (apply Hu; left).
    split; [assumption |].
    apply elem_of_cons in Hz as [-> | Hz]; [lia |].
    apply elem_of_cons in Hz as [-> | Hz]; [lia |].
    specialize (Hv z Hz). lia.
  - apply StronglySorted_inv in Hs as [Hs Ha].
    rewrite Forall_forall in Ha.
    apply elem_of_cons in Hz as [-> | Hz]; [| now apply IH].
    assert (a < u) by (apply Ha; apply elem_of_app; right; left).
    destruct (IH u Hs) as [Huv _]; [apply elem_of_app; right; left |].
    split; [assumption | lia].
Qed.

Lemma sorted_consecutive_around (l : list Z) (u v p : Z) :
  StronglySorted Z.lt l -> u ∈ l -> v ∈ l -> u <= p < v ->
  exists l1 u' v' l2, l = l1 ++ u' :: v' :: l2 /\ u' <= p < v'.
Proof.
  intros Hs. revert u.
  induction Hs as [| a t Hs IH Ha]; intros u Hu Hv Hp.
  - now apply elem_of_nil in Hu.
  - rewrite Forall_forall in Ha.
    destruct t as [| b t'].
    + apply list_elem_of_singleton in Hu, Hv. lia.
    + assert (Hab : a < b) by (apply Ha; left).
      destruct (Z_lt_le_dec p b) as [Hpb | Hbp].
      * exists [], a, b, t'. split; [reflexivity |].
        apply elem_of_cons in Hu as [-> | Hu]; [lia |].
        apply elem_of_cons in Hu as [-> | Hu]; [lia |].
        apply StronglySorted_inv in Hs as [_ Hb].
        rewrite Forall_forall in Hb. specialize (Hb u Hu). lia.
      * destruct (IH b) as (l1 & u' & v' & l2 & E & Hp');
          [left | | lia |].
        { apply elem_of_cons in Hv as [-> | Hv]; [lia | exact Hv]. }
        exists (a :: l1), u', v', l2. split; [| exact Hp'].
        simpl. now rewrite E.
Qed.

(** A stretch [a .. e] without an element of a sorted list, between two of its
    elements, lies inside one gap of the list. *)
Lemma sorted_gap (l : list Z) (u v a e : Z) :
  StronglySorted Z.lt l -> u ∈ l -> v ∈ l -> u < a -> e < v -> a <= e + 1 ->
  (forall z, z ∈ l -> ~ (a <= z <= e)) ->
  exists d, d ∈ diff l /\ e - a + 2 <= d.
Proof.
  intros Hs Hu Hv Hua Hev Hae Hfree.
  destruct (sorted_consecutive_around l u v (a - 1) Hs Hu Hv)
    as (l1 & u' & v' & l2 & E & Hp); [lia |].
  exists (v' - u'). split; [apply diff_elem; now exists l1, u', v', l2 |].
  assert (Hv' : v' ∈ l).
  { rewrite E. apply elem_of_app. right. right. left. }
  specialize (Hfree v' Hv'). lia.
Qed.

Lemma foldl_max_spec (t : list Z) (h : Z) :
  foldl Z.max h t ∈ h :: t /\ forall x, x ∈ h :: t -> x <= foldl Z.max h t.
Proof.
  revert h. induction t as [| a t IH]; intros h; simpl.
  - split; [left |]. intros x Hx. apply list_elem_of_singleton in Hx. lia.
  - destruct (IH (Z.max h a)) as [Hin Hmax]. split.
    + apply elem_of_cons in Hin as [E | Hin]; [| right; now right].
      rewrite E. destruct (Z.max_spec h a) as [[_ ->] | [_ ->]];
        [right; left | left].
    + intros x Hx.
      assert (Hm : Z.max h a <= foldl Z.max (Z.max h a) t)
        by (apply Hmax; left).
      apply elem_of_cons in Hx as [-> | Hx]; [lia |].
      apply elem_of_cons in Hx as [-> | Hx]; [lia |].
      apply Hmax. now right.
Qed.

Lemma amax_spec (l : list Z) :
  l <> [] ->
  exists m, amax l = Ok m /\ m ∈ l /\ forall x, x ∈ l -> x <= m.
Proof.
  destruct l as [| h t]; [congruence |]. intros _.
  exists (foldl Z.max h t). split; [reflexivity |]. apply foldl_max_spec.
Qed.

End Gaps.

(** ** The shortest arc of the True columns *)

Section Arc.
Variable b : list bool.
Variable t : nat.
Hypothesis Ht : b !! t = Some true.

Let n : Z := Z.of_nat (length b).
Let U : list Z := where_ (b ++ b).

Lemma arc_n_pos : 0 <= Z.of_nat t < n.
Proof. apply lookup_lt_Some in Ht. unfold n. lia. Qed.

Lemma arc_U_sorted : StronglySorted Z.lt U.
Proof. apply where_sorted. Qed.

Lemma arc_U_elem (p : Z) :
  p ∈ U <-> 0 <= p < 2 * n /\ b !! Z.to_nat (p mod n) = Some true.
Proof. apply where_doubled_elem. Qed.

Lemma arc_t_in_U : Z.of_nat t ∈ U /\ Z.of_nat t + n ∈ U.
Proof.
  pose proof arc_n_pos as Hn. split; apply arc_U_elem.
  - split; [lia |]. rewrite Z.mod_small by lia. now rewrite Nat2Z.id.
  - split; [lia |].
    replace ((Z.of_nat t + n) mod n) with (Z.of_nat t).
    + now rewrite Nat2Z.id.
    + apply Z.mod_unique with 1; lia.
Qed.

(** A stretch of columns without a True one is shorter than the widest gap of
    [U]. *)
Lemma free_stretch_bound (G a len : Z) :
  (forall d, d ∈ diff U -> d <= G) ->
  1 <= len ->
  (forall p, a <= p < a + len -> b !! Z.to_nat (p mod n) <> Some true) ->
  len + 1 <= G.
Proof.
  intros HG Hlen Hfree.
  pose proof arc_n_pos as Hn.
  destruct arc_t_in_U as [HtU HtnU].
  set (T := Z.of_nat t) in *.
  set (m := (a - T) / n).
  assert (Hdm : a - T = n * m + (a - T) mod n) by (apply Z.div_mod; lia).
  assert (Hr : 0 <= (a - T) mod n < n) by (apply Z.mod_pos_bound; lia).
  set (r := (a - T) mod n) in *.
  assert (Hshift : forall z, (z + m * n) mod n = z mod n)
    by (intros z; apply Z_mod_plus_full).
  assert (Hres : forall z, z mod n = T -> ~ (a <= z < a + len)).
  { intros z Hz Hin. apply (Hfree z Hin). rewrite Hz. unfold T.
    now rewrite Nat2Z.id. }
  assert (Hr0 : r <> 0).
  { intros E. apply (Hres a); [| lia].
    replace a with (T + m * n) by lia.
    rewrite Hshift. apply Z.mod_small. lia. }
  assert (Hend : T + r + len - 1 < T + n).
  { destruct (Z_lt_le_dec (T + r + len - 1) (T + n)) as [Hlt | Hge];
      [exact Hlt |].
    exfalso. apply (Hres (T + n + m * n)); [| nia].
    rewrite Hshift. symmetry. apply Z.mod_unique with 1; lia. }
  assert (Hclear : forall z, z ∈ U -> ~ (T + r <= z <= T + r + len - 1)).
  { intros z Hz Hin. apply arc_U_elem in Hz as [_ Hz].
    apply (Hfree (z + m * n)); [nia |].
    now rewrite Hshift. }
  destruct (sorted_gap U T (T + n) (T + r) (T + r + len - 1)
              arc_U_sorted HtU HtnU ltac:(lia) ltac:(lia) ltac:(lia) Hclear)
    as (d & Hd & Hbig).
  specialize (HG d Hd). lia.
Qed.

(** The widest gap of [U] and the two True positions around it. *)
Lemma widest_gap :
  exists G u v,
    amax (diff U) = Ok G
    /\ (forall d, d ∈ diff U -> d <= G)
    /\ u ∈ U /\ v ∈ U /\ v - u = G /\ 1 <= G
    /\ forall z, z ∈ U -> z <= u \/ v <= z.
Proof.
  destruct arc_t_in_U as [HtU HtnU].
  pose proof arc_n_pos as Hn.
  assert (Hne : diff U <> []).
  { assert (Hfree : forall z, z ∈ U ->
                        ~ (Z.of_nat t + 1 <= z <= Z.of_nat t)) by (intros; lia).
    destruct (sorted_gap U (Z.of_nat t) (Z.of_nat t + n)
                (Z.of_nat t + 1) (Z.of_nat t) arc_U_sorted HtU HtnU
                ltac:(lia) ltac:(lia) ltac:(lia) Hfree)
      as (d & Hd & _).
    intros E. rewrite E in Hd. now apply elem_of_nil in Hd. }
  destruct (amax_spec _ Hne) as (G & HG & Hin & Hmax).
  apply diff_elem in Hin as (l1 & u & v & l2 & E & HGuv).
  pose proof arc_U_sorted as Hs. rewrite E in Hs.
  exists G, u, v.
  assert (Huv : u < v).
  { apply (sorted_consecutive l1 l2 u v u Hs).
    apply elem_of_app. right. left. }
  repeat split; try assumption; try lia.
  - rewrite E. apply elem_of_app. right. left.
  - rewrite E. apply elem_of_app. right. right. left.
  - intros z Hz. rewrite E in Hz.
    now apply (sorted_consecutive l1 l2 u v z Hs).
Qed.

Lemma doubled_lookup_false (p : Z) :
  0 <= p < 2 * n -> ~ p ∈ U -> (b ++ b) !! Z.to_nat p = Some false.
Proof.
  intros Hp HnU.
  destruct ((b ++ b) !! Z.to_nat p) as [[|] |] eqn:E.
  - exfalso. apply HnU. apply where_elem. split; [lia | exact E].
  - reflexivity.
  - apply lookup_ge_None in E. rewrite length_app in E. unfold n in Hp. lia.
Qed.

(** The run of False that [get_errors] measures, and the arc it leaves. *)
Lemma columns_arc :
  exists G,
    amax (diff (where_ (b ++ b))) = Ok G
    /\ longest_false_run (b ++ b) (G - 1)
    /\ shortest_arc b (Z.of_nat (length b) - (G - 1)).
Proof.
  destruct widest_gap as (G & u & v & HG & Hmax & Hu & Hv & Huv & HG1 & Hbetween).
  pose proof arc_n_pos as Hn.
  assert (HuU := proj1 (arc_U_elem u) Hu).
  assert (HvU := proj1 (arc_U_elem v) Hv).
  exists G. split; [exact HG |]. split; [split | split].
  - (* a run of G - 1 *)
    exists (u + 1). repeat split; try lia.
    + rewrite length_app. fold n. lia.
    + intros p Hp. apply doubled_lookup_false; [lia |].
      intros HpU. destruct (Hbetween p HpU); lia.
  - (* no longer run *)
    intros a len' (Ha & Hlen & Hfit & Hrun).
    destruct (Z_lt_le_dec len' 1) as [Hsmall | Hbig]; [lia |].
    rewrite length_app in Hfit. fold n in Hfit.
    enough (len' + 1 <= G) by lia.
    apply (free_stretch_bound G a len' Hmax Hbig).
    intros p Hp Htrue.
    specialize (Hrun p Hp).
    rewrite lookup_doubled in Hrun by (fold n; lia).
    fold n in Hrun. congruence.
  - (* an arc of that length *)
    exists (v mod n).
    split; [apply Z.mod_pos_bound; lia |].
    intros i Hi. unfold on_arc. fold n.
    assert (Hin : 0 <= Z.of_nat i < n).
    { apply lookup_lt_Some in Hi. unfold n. lia. }
    set (r := (Z.of_nat i - v mod n) mod n).
    assert (Hr : 0 <= r < n) by (apply Z.mod_pos_bound; lia).
    destruct (Z_lt_le_dec r (n - (G - 1))) as [Hlt | Hge]; [exact Hlt |].
    exfalso.
    assert (Hdm1 : Z.of_nat i - v mod n
                   = n * ((Z.of_nat i - v mod n) / n) + r)
      by (apply Z.div_mod; lia).
    assert (Hdm2 : v = n * (v / n) + v mod n) by (apply Z.div_mod; lia).
    set (p := v - n + r).
    assert (Hpmod : p mod n = Z.of_nat i).
    { symmetry.
      apply Z.mod_unique with (v / n - 1 - (Z.of_nat i - v mod n) / n);
        [lia |].
      unfold p. lia. }
    assert (HpU : p ∈ U).
    { apply arc_U_elem. split; [unfold p; lia |].
      rewrite Hpmod. now rewrite Nat2Z.id. }
    destruct (Hbetween p HpU); unfold p in *; lia.
  - (* no shorter arc *)
    intros k len' Hk Hcov. fold n in Hk.
    assert (Hpos : 1 <= len').
    { specialize (Hcov t Ht). unfold on_arc in Hcov. fold n in Hcov.
      pose proof (Z.mod_pos_bound (Z.of_nat t - k) n). lia. }
    destruct (Z_lt_le_dec len' (n - (G - 1))) as [Hlt | Hge]; [| fold n; lia].
    exfalso.
    enough (n - len' + 1 <= G) by lia.
    apply (free_stretch_bound G (k + len') (n - len') Hmax); [lia |].
    intros p Hp Htrue.
    specialize (Hcov _ Htrue). unfold on_arc in Hcov. fold n in Hcov.
    rewrite Z2Nat.id in Hcov by (apply Z.mod_pos_bound; lia).
    rewrite Zminus_mod_idemp_l in Hcov.
    rewrite Z.mod_small in Hcov by lia. lia.
Qed.

End Arc.

(** ** Confidence masks *)

Section Masks.

Lemma existsb_id_lookup (row : list bool) :
  existsb id row = true <-> exists c : nat, row !! c = Some true.
Proof.
  rewrite existsb_exists. split.
  - intros (x & Hin & Hx). unfold id in Hx. subst x.
    apply list_elem_of_In, list_elem_of_lookup in Hin. exact Hin.
  - intros (c & Hc). exists true. split; [| reflexivity].
    apply list_elem_of_In, list_elem_of_lookup. eauto.
Qed.

Lemma any_axis1_lookup (m : mask) (r : nat) :
  any_axis1 m !! r = Some true <-> true_row m r.
Proof.
  unfold any_axis1, true_row, node. rewrite list_lookup_fmap.
  destruct (rows m !! r) as [row |]; simpl.
  - split.
    + intros [= E]. now apply existsb_id_lookup.
    + intros Hc. f_equal. now apply existsb_id_lookup.
  - split; [discriminate | intros [c Hc]; discriminate Hc].
Qed.

Lemma any_axis0_rows (n : nat) (rs : list (list bool)) :
  Forall (fun row => length row = n) rs ->
  let b := foldr (fun row acc => zip_with orb row acc) (replicate n false) rs in
  length b = n
  /\ forall c : nat,
       b !! c = Some true <-> exists r row, rs !! r = Some row /\ row !! c = Some true.
Proof.
  induction 1 as [| row rs Hrow Hrs IH]; simpl.
  - split; [apply length_replicate |].
    intros c. split.
    + intros Hc. apply lookup_replicate in Hc as [Hc _]. discriminate Hc.
    + intros (r & row & Hr & _). discriminate Hr.
  - destruct IH as [Hlen IH]. split.
    + rewrite length_zip_with. lia.
    + intros c. rewrite lookup_zip_with_Some. split.
      * intros (x & y & Hxy & Hx & Hy).
        symmetry in Hxy. apply orb_true_iff in Hxy as [-> | ->].
        -- exists 0%nat, row. split; [reflexivity | exact Hx].
        -- apply IH in Hy as (r & row' & Hr & Hc).
           exists (S r), row'. split; assumption.
      * intros (r & row' & Hr & Hc).
        assert (Hcn : (c < n)%nat).
        { destruct r as [| r]; simpl in Hr.
          - injection Hr as <-. apply lookup_lt_Some in Hc. lia.
          - rewrite Forall_forall in Hrs.
            assert (Hin : row' ∈ rs)
              by (apply list_elem_of_lookup; eauto).
            specialize (Hrs row' Hin). apply lookup_lt_Some in Hc. lia. }
        destruct (lookup_lt_is_Some_2 row c) as [x Hx]; [lia |].
        destruct (lookup_lt_is_Some_2
                    (foldr (fun row acc => zip_with orb row acc)
                           (replicate n false) rs) c) as [y Hy]; [lia |].
        exists x, y. split; [| split; assumption].
        destruct r as [| r]; simpl in Hr.
        -- injection Hr as <-. rewrite Hx in Hc. injection Hc as ->.
           reflexivity.
        -- assert (Hy' : foldr (fun row acc => zip_with orb row acc)
                           (replicate n false) rs !! c = Some true)
             by (apply IH; eauto).
           rewrite Hy in Hy'. injection Hy' as ->.
           now rewrite orb_true_r.
Qed.

Lemma any_axis0_length (m : mask) :
  wf_mask m -> length (any_axis0 m) = ncols m.
Proof. intros Hwf. now apply any_axis0_rows. Qed.

Lemma any_axis0_lookup (m : mask) (c : nat) :
  wf_mask m ->
  any_axis0 m !! c = Some true <-> exists r, node m r c = Some true.
Proof.
  intros Hwf. unfold any_axis0.
  rewrite (proj2 (any_axis0_rows (ncols m) (rows m) Hwf) c).
  unfold node. split.
  - intros (r & row & Hr & Hc). exists r. rewrite Hr. exact Hc.
  - intros (r & Hrc). destruct (rows m !! r) as [row |] eqn:Hr;
      [| discriminate Hrc].
    exists r, row. split; [exact Hr | exact Hrc].
Qed.

Lemma where_nil (l : list bool) :
  (forall i : nat, l !! i <> Some true) -> where_ l = [].
Proof.
  intros Hl. destruct (where_ l) as [| z zs] eqn:E; [reflexivity |].
  assert (Hz : z ∈ where_ l) by (rewrite E; left).
  apply where_elem in Hz as [_ Hz]. now destruct (Hl _ Hz).
Qed.

Lemma sorted_last (l : list Z) (a : Z) :
  StronglySorted Z.lt (a :: l) ->
  exists la, last (a :: l) = Some la /\ la ∈ a :: l
             /\ forall z, z ∈ a :: l -> a <= z <= la.
Proof.
  revert a. induction l as [| b l IH]; intros a Hs.
  - exists a. split; [reflexivity |]. split; [left |].
    intros z Hz. apply list_elem_of_singleton in Hz. lia.
  - apply StronglySorted_inv in Hs as [Hs Ha].
    rewrite Forall_forall in Ha.
    destruct (IH b Hs) as (la & Hla & Hin & Hall).
    exists la. split; [exact Hla |]. split; [now right |].
    intros z Hz.
    assert (a < b) by (apply Ha; left).
    apply elem_of_cons in Hz as [-> | Hz].
    + specialize (Hall b ltac:(left)). lia.
    + specialize (Hall z Hz). lia.
Qed.

(** First and last element of a sorted, non-empty index array. *)
Lemma index_first_last (l : list Z) :
  l <> [] -> StronglySorted Z.lt l ->
  exists f la, index l (-1) = Ok la /\ index l 0 = Ok f
               /\ f ∈ l /\ la ∈ l /\ forall z, z ∈ l -> f <= z <= la.
Proof.
  destruct l as [| a l]; [congruence |]. intros _ Hs.
  destruct (sorted_last l a Hs) as (la & Hla & Hin & Hall).
  exists a, la. repeat split; try assumption; try (now left);
    try (now apply Hall).
  unfold index.
  rewrite last_lookup in Hla. simpl length in *.
  replace (-1 <? 0) with true by reflexivity.
  replace (Z.to_nat (-1 + Z.of_nat (S (length l)))) with (pred (S (length l)))
    by lia.
  rewrite Hla.
  destruct ((-1 + Z.of_nat (S (length l)) <? 0)
            || (Z.of_nat (S (length l)) <=? -1 + Z.of_nat (S (length l))))
    eqn:E; [| reflexivity].
  apply orb_true_iff in E as [E | E]; [apply Z.ltb_lt in E | apply Z.leb_le in E];
    lia.
Qed.

End Masks.

(** ** Error bars *)

Section LagSpan.

Lemma lagspan_first_last (m : mask) :
  nonempty_mask m ->
  exists first last : nat,
    Measure.lagspan m = Ok (Z.of_nat last - Z.of_nat first + 1)
    /\ true_row m first /\ true_row m last
    /\ forall r, true_row m r -> (first <= r <= last)%nat.
Proof.
  intros (r0 & c0 & H0).
  assert (Hr0 : Z.of_nat r0 ∈ where_ (any_axis1 m)).
  { apply where_elem. split; [lia |]. rewrite Nat2Z.id.
    apply any_axis1_lookup. now exists c0. }
  destruct (index_first_last (where_ (any_axis1 m))) as
    (f & la & Hla & Hf & Hfin & Hlain & Hall).
  { intros E. rewrite E in Hr0. now apply elem_of_nil in Hr0. }
  { apply where_sorted. }
  apply where_elem in Hfin as [Hf0 Hfrow].
  apply where_elem in Hlain as [Hla0 Hlarow].
  exists (Z.to_nat f), (Z.to_nat la).
  rewrite !Z2Nat.id by lia.
  split; [unfold Measure.lagspan; rewrite Hla; simpl; now rewrite Hf |].
  split; [now apply any_axis1_lookup |].
  split; [now apply any_axis1_lookup |].
  intros r Hr.
  assert (Hin : Z.of_nat r ∈ where_ (any_axis1 m)).
  { apply where_elem. split; [lia |]. rewrite Nat2Z.id.
    now apply any_axis1_lookup. }
  specialize (Hall _ Hin). lia.
Qed.

Lemma lagspan_empty (m : mask) :
  empty_mask m -> Measure.lagspan m = Raise IndexError.
Proof.
  intros Hempty. unfold Measure.lagspan.
  rewrite where_nil; [reflexivity |].
  intros r Hr. apply any_axis1_lookup in Hr as [c Hc].
  now apply (Hempty r c).
Qed.

Lemma lengthTrue_arc (m : mask) :
  wf_mask m -> nonempty_mask m ->
  exists gap,
    Measure.lengthTrue m = Ok (Z.of_nat (ncols m) - gap)
    /\ longest_false_run (any_axis0 m ++ any_axis0 m) gap
    /\ shortest_arc (any_axis0 m) (Z.of_nat (ncols m) - gap).
Proof.
  intros Hwf (r & c & Hrc).
  assert (Hc : any_axis0 m !! c = Some true)
    by (apply any_axis0_lookup; eauto).
  destruct (columns_arc (any_axis0 m) c Hc) as (G & HG & Hrun & Harc).
  rewrite any_axis0_length in Harc by assumption.
  exists (G - 1). split; [| split; assumption].
  unfold Measure.lengthTrue. rewrite HG. simpl.
  now rewrite any_axis0_length.
Qed.

(** On a full mask the span is the number of rows and the arc is the whole
    cycle. *)
Lemma full_mask_extent (m : mask) :
  wf_mask m -> full_mask m ->
  Measure.lagspan m = Ok (Z.of_nat (length (rows m)))
  /\ Measure.lengthTrue m = Ok (Z.of_nat (ncols m)).
Proof.
  intros Hwf (Hrows & Hcols & Hfull).
  assert (Hnode : forall r c, (r < length (rows m))%nat -> (c < ncols m)%nat ->
                    node m r c = Some true).
  { intros r c Hr Hc. unfold node.
    destruct (lookup_lt_is_Some_2 (rows m) r Hr) as [row Hrow].
    assert (Hlen : length row = ncols m).
    { unfold wf_mask in Hwf. rewrite Forall_forall in Hwf. apply Hwf.
      apply list_elem_of_lookup. eauto. }
    destruct (lookup_lt_is_Some_2 row c) as [x Hx]; [lia |].
    rewrite <- (Hfull r c x); unfold node; rewrite Hrow; simpl; exact Hx. }
  assert (Hrpos : (0 < length (rows m))%nat)
    by (destruct (rows m); [congruence | simpl; lia]).
  assert (Hne : nonempty_mask m).
  { exists 0%nat, 0%nat. apply Hnode; lia. }
  split.
  - destruct (lagspan_first_last m Hne)
      as (first & last & Hspan & Hfirst & Hlast & Hall).
    assert (Hlt : forall r, true_row m r -> (r < length (rows m))%nat).
    { intros r [c Hc]. unfold node in Hc.
      destruct (rows m !! r) eqn:E; [| discriminate Hc].
      now apply lookup_lt_Some in E. }
    assert (H0 : true_row m 0) by (exists 0%nat; apply Hnode; lia).
    assert (Hn : true_row m (pred (length (rows m))))
      by (exists 0%nat; apply Hnode; lia).
    apply Hall in H0, Hn. apply Hlt in Hlast.
    rewrite Hspan. f_equal. lia.
  - destruct (lengthTrue_arc m Hwf Hne) as (gap & Hlen & _ & Hexists & Hmin).
    rewrite Hlen. f_equal.
    rewrite any_axis0_length in Hexists, Hmin by assumption.
    set (n := Z.of_nat (ncols m)) in *.
    assert (Hall : forall c, (c < ncols m)%nat ->
                     any_axis0 m !! c = Some true).
    { intros c Hc. apply any_axis0_lookup; [assumption |].
      exists 0%nat. apply Hnode; lia. }
    assert (Hle : n - gap <= n).
    { apply (Hmin 0); [unfold n; lia |].
      intros i Hi. unfold on_arc.
      apply lookup_lt_Some in Hi.
      rewrite any_axis0_length in * by assumption. fold n.
      apply Z.mod_pos_bound. lia. }
    destruct Hexists as (k & Hk & Hcov).
    assert (Hge : n - 1 < n - gap).
    { specialize (Hcov (Z.to_nat ((k - 1) mod n))).
      unfold on_arc in Hcov.
      rewrite any_axis0_length in Hcov by assumption. fold n in Hcov.
      assert (Hb : 0 <= (k - 1) mod n < n) by (apply Z.mod_pos_bound; lia).
      rewrite Z2Nat.id in Hcov by lia.
      rewrite Zminus_mod_idemp_l in Hcov.
      replace ((k - 1 - k) mod n) with (n - 1) in Hcov.
      - apply Hcov. apply Hall. unfold n in *. lia.
      - apply Z.mod_unique with (-1); lia. }
    lia.
Qed.

End LagSpan.

Section GetErrors.
Context `{Float}.

Lemma index_nonneg {A} (l : list A) (i : nat) (a : A) :
  l !! i = Some a -> index l (Z.of_nat i) = Ok a.
Proof.
  intros Hi. unfold index.
  assert (Hlt : (i < length l)%nat) by (eapply lookup_lt_Some; exact Hi).
  assert (E1 : (Z.of_nat i <? 0) = false) by (apply Z.ltb_ge; lia).
  assert (E2 : (Z.of_nat (length l) <=? Z.of_nat i) = false)
    by (apply Z.leb_gt; lia).
  cbv zeta. rewrite E1, E1, E2. simpl. now rewrite Nat2Z.id, Hi.
Qed.

Lemma index_0 {A} (a : A) (l : list A) : index (a :: l) 0 = Ok a.
Proof. exact (index_nonneg (a :: l) 0 a eq_refl). Qed.

Lemma index_1 {A} (a b : A) (l : list A) : index (a :: b :: l) 1 = Ok b.
Proof. exact (index_nonneg (a :: b :: l) 1 b eq_refl). Qed.

Lemma get_errors_of_mask (self : Measure.t) (surftype : pyval) (cm : mask)
    (l0 l1 d0 d1 : F) (ls ds : list F) :
  Measure.lags self = l0 :: l1 :: ls ->
  Measure.degs self = d0 :: d1 :: ds ->
  Measure.confidence_mask self surftype = Ok cm ->
  Measure.get_errors self surftype
  = Measure.mask_errors cm (fsub d1 d0) (fsub l1 l0).
Proof.
  intros Hl Hd Hcm. unfold Measure.get_errors.
  rewrite Hl, Hd, Hcm.
  rewrite !index_1, !index_0. reflexivity.
Qed.

(** The grid steps are read from [lags[1]] and [degs[1]] before anything
    else: a grid with fewer than two lags or two angles raises. *)
Lemma get_errors_short_grid (self : Measure.t) (surftype : pyval) :
  (length (Measure.lags self) < 2)%nat \/ (length (Measure.degs self) < 2)%nat ->
  Measure.get_errors self surftype = Raise IndexError.
Proof.
  intros Hshort. unfold Measure.get_errors.
  destruct (Measure.lags self) as [| l0 [| l1 ls]]; [reflexivity.. |].
  rewrite index_1, index_0. simpl.
  destruct Hshort as [Hl | Hd]; [simpl in Hl; lia |].
  destruct (Measure.degs self) as [| d0 [| d1 ds]]; [reflexivity.. |].
  simpl in Hd. lia.
Qed.

(** C2 (amended).  On a mask without a True node [get_errors] returns no
    sentinel: on every grid it raises [IndexError] (the lag error indexes
    an empty array).  On a full mask it returns a value exactly on the
    grids with at least two lags and two angles, the ones whose steps it
    can read: there it returns a quarter of the full extent of the grid on
    both axes, and on a smaller grid it raises [IndexError]. *)
Theorem get_errors_degenerate (self : Measure.t) (surftype : pyval)
    (cm : mask) :
  Measure.confidence_mask self surftype = Ok cm ->
  wf_mask cm ->
  (empty_mask cm -> Measure.get_errors self surftype = Raise IndexError)
  /\ (full_mask cm ->
      ((length (Measure.lags self) < 2)%nat
       \/ (length (Measure.degs self) < 2)%nat ->
       Measure.get_errors self surftype = Raise IndexError)
      /\ (forall (l0 l1 d0 d1 : F) (ls ds : list F),
            Measure.lags self = l0 :: l1 :: ls ->
            Measure.degs self = d0 :: d1 :: ds ->
            Measure.get_errors self surftype
            = Ok (fmul (fmul (of_int (Z.of_nat (ncols cm))) (fsub d1 d0))
                       quarter,
                  fmul (fmul (of_int (Z.of_nat (length (rows cm))))
                             (fsub l1 l0))
                       quarter))).
Proof.
  intros Hcm Hwf. split.
  - intros Hempty.
    destruct (Measure.lags self) as [| l0 [| l1 ls]] eqn:Hl;
      try (apply get_errors_short_grid; left; rewrite Hl; simpl; lia).
    destruct (Measure.degs self) as [| d0 [| d1 ds]] eqn:Hd;
      try (apply get_errors_short_grid; right; rewrite Hd; simpl; lia).
    rewrite (get_errors_of_mask self surftype cm l0 l1 d0 d1 ls ds Hl Hd Hcm).
    unfold Measure.mask_errors. now rewrite lagspan_empty.
  - intros Hfull. split; [apply get_errors_short_grid |].
    intros l0 l1 d0 d1 ls ds Hl Hd.
    rewrite (get_errors_of_mask self surftype cm l0 l1 d0 d1 ls ds Hl Hd Hcm).
    unfold Measure.mask_errors.
    destruct (full_mask_extent cm Hwf Hfull) as [-> ->]. reflexivity.
Qed.

(** C4 (amended).  On a mask with a True node, the lag error is a quarter of
    the lag step times [last - first + 1], where [first] and [last] are the
    first and the last row that has a True node in any column. *)
Theorem get_errors_lag_span (self : Measure.t) (surftype : pyval)
    (cm : mask) (l0 l1 d0 d1 : F) (ls ds : list F) :
  Measure.lags self = l0 :: l1 :: ls ->
  Measure.degs self = d0 :: d1 :: ds ->
  Measure.confidence_mask self surftype = Ok cm ->
  wf_mask cm -> nonempty_mask cm ->
  exists (first last : nat) (fdfast : F),
    true_row cm first /\ true_row cm last
    /\ (forall r, true_row cm r -> (first <= r <= last)%nat)
    /\ Measure.get_errors self surftype
       = Ok (fdfast,
             fmul (fmul (of_int (Z.of_nat last - Z.of_nat first + 1))
                        (fsub l1 l0)) quarter).
Proof.
  intros Hl Hd Hcm Hwf Hne.
  destruct (lagspan_first_last cm Hne)
    as (first & last & Hspan & Hfirst & Hlast & Hall).
  destruct (lengthTrue_arc cm Hwf Hne) as (gap & Hlen & _).
  exists first, last. eexists.
  split; [exact Hfirst |]. split; [exact Hlast |]. split; [exact Hall |].
  rewrite (get_errors_of_mask self surftype cm l0 l1 d0 d1 ls ds Hl Hd Hcm).
  unfold Measure.mask_errors. rewrite Hspan, Hlen. reflexivity.
Qed.

(** C3.  On a mask with a True node, the fast-angle error is a quarter of the
    angle step times the length of the shortest cyclic arc that contains all
    True columns, and that length is the number of columns minus the length
    of the longest run of False in the doubled column mask. *)
Theorem get_errors_fast_arc (self : Measure.t) (surftype : pyval)
    (cm : mask) (l0 l1 d0 d1 : F) (ls ds : list F) :
  Measure.lags self = l0 :: l1 :: ls ->
  Measure.degs self = d0 :: d1 :: ds ->
  Measure.confidence_mask self surftype = Ok cm ->
  wf_mask cm -> nonempty_mask cm ->
  exists (arc gap : Z) (fdlag : F),
    longest_false_run (any_axis0 cm ++ any_axis0 cm) gap
    /\ arc = Z.of_nat (length (any_axis0 cm)) - gap
    /\ shortest_arc (any_axis0 cm) arc
    /\ Measure.lengthTrue cm = Ok arc
    /\ Measure.get_errors self surftype
       = Ok (fmul (fmul (of_int arc) (fsub d1 d0)) quarter, fdlag).
Proof.
  intros Hl Hd Hcm Hwf Hne.
  destruct (lagspan_first_last cm Hne) as (first & last & Hspan & _).
  destruct (lengthTrue_arc cm Hwf Hne) as (gap & Hlen & Hrun & Harc).
  exists (Z.of_nat (ncols cm) - gap), gap. eexists.
  split; [exact Hrun |].
  split; [now rewrite any_axis0_length |].
  split; [exact Harc |].
  split; [exact Hlen |].
  rewrite (get_errors_of_mask self surftype cm l0 l1 d0 d1 ls ds Hl Hd Hcm).
  unfold Measure.mask_errors. rewrite Hspan, Hlen. reflexivity.
Qed.

End GetErrors.

(** ** Equality of pairs *)

Section PairEq.
Context `{Float}.

Lemma Window_eq_true (w1 w2 : Window.t) : Window.__eq__ w1 w2 = true.
Proof.
  unfold Window.__eq__, Window.__class__.
  rewrite String.eqb_refl. simpl.
  rewrite bool_decide_true; [reflexivity |].
  unfold Window.__dict__. now rewrite !dom_insert_L.
Qed.

Lemma Pair_dict_with_window (p : Pair.t) (w : Window.t) (key : string) :
  Pair.__dict__ (Pair.with_window p w) !! key
  = if decide (key = "_Data__window") then Some (Pair.AWindow w)
    else Pair.__dict__ p !! key.
Proof.
  unfold Pair.__dict__, Pair.with_window. simpl.
  destruct (Pair.eig p) as [[vals vecs] |];
    destruct (String.eqb (Pair.class_ p) "Pair");
    repeat (rewrite lookup_insert; case_decide; subst; try discriminate);
    repeat case_decide; try congruence; try reflexivity.
Qed.

Lemma Pair_dict_window (p : Pair.t) :
  Pair.__dict__ p !! "_Data__window" = Some (Pair.AWindow (Pair.window p)).
Proof.
  unfold Pair.__dict__.
  destruct (Pair.eig p) as [[vals vecs] |];
    destruct (String.eqb (Pair.class_ p) "Pair"); reflexivity.
Qed.

(** Replacing the window of a pair does not change what [__eq__] answers:
    the window attribute is compared by [Window.__eq__], which is always
    true. *)
Lemma Pair_eq_with_window (p : Pair.t) (w : Window.t) :
  Pair.__eq__ p p = true -> Pair.__eq__ p (Pair.with_window p w) = true.
Proof.
  unfold Pair.__eq__.
  change (Pair.class_ (Pair.with_window p w)) with (Pair.class_ p).
  rewrite String.eqb_refl. simpl.
  rewrite bool_decide_true by reflexivity. simpl.
  assert (Hdom : dom (Pair.__dict__ p)
                 = dom (Pair.__dict__ (Pair.with_window p w))).
  { apply set_eq. intros key. rewrite !elem_of_dom, Pair_dict_with_window.
    case_decide as E; [| reflexivity].
    subst key. rewrite Pair_dict_window. split; eauto. }
  rewrite bool_decide_true by exact Hdom. simpl.
  rewrite !forallb_forall. intros Hself [key v] Hin.
  specialize (Hself (key, v) Hin). simpl in *.
  rewrite Pair_dict_with_window.
  case_decide as E; [| exact Hself].
  subst key.
  apply list_elem_of_In, elem_of_map_to_list in Hin.
  rewrite Pair_dict_window in Hin. injection Hin as <-.
  apply Window_eq_true.
Qed.

End PairEq.

(** * Evaluations on concrete inputs *)

Module Witness.
Import Rational Inputs.

Lemma init_m15 : Measure.__init__ pair15 energy kw_search = Ok m15.
Proof. reflexivity. Defined.


(** With the two imports and [data] supplied the search of [m15] returns. *)
Lemma gridsearch_m15 :
  Measure.gridsearch (ns := all_bound) m15 kw_search
  = Ok [[[19; 14]; [18; 5]]]%Q.
Proof. vm_compute. reflexivity. Defined.

(** C1 as specified fails: the window of the search is not the
    configured window shrunk on both sides.  For the bounds (10, 20) and a
    shift of 4 samples the search chops to (8, 18), not to (12, 18). *)
Lemma win_not_shrunk :
  Measure.win 10 20 4 = (8, 18)
  /\ win_shrunk 10 20 4 = (12, 18)
  /\ Measure.win 10 20 4 <> win_shrunk 10 20 4.
Proof. repeat split. discriminate. Defined.

(** C1 (amended) on [m15]: at the node of shift 2 the pair is chopped to
    (4, 8), the configured window (5, 9) moved down by one sample. *)
Lemma getout_window_recentred_witness :
  _w0 pair15 = 5 /\ _w1 pair15 = 9
  /\ exists xs ys xc yc : list Q, chop xs ys 4 8 = Ok (xc, yc).
Proof.
  split; [reflexivity |]. split; [reflexivity |].
  destruct (proj2 (proj2 (proj2 (proj2
              (getout_window_recentred (ns := all_bound) m15 kw_search 0 0
                 (fun x y _ => (x, y)) (fun x y _ => Ok (x, y))
                 [] [] 0%Q 0))))
              [[[19; 14]; [18; 5]]]%Q 0%nat 1%nat 0%Q 2
              gridsearch_m15 eq_refl eq_refl)
    as (xs & ys & xc & yc & _ & _ & _ & _ & Hchop & _).
  exists xs, ys, xc, yc. exact Hchop.
Defined.



(** C8 on a pair of traces of two samples. *)
Lemma malformed_construction_raises_witness :
  exists e, construct (NewPair (array1 [1; 2]%Q) (array1 [1; 2]%Q) kw_delta)
            = Raise e.
Proof.
  apply malformed_construction_raises.
  apply even_length. reflexivity.
Defined.

Lemma Qtime2samps_even (t d : Q) : Z.even (time2samps t d "even") = true.
Proof. simpl. unfold Qtime2samps. simpl. now rewrite Z.even_mul. Defined.

(** C5 on five requested lag times that fall on three sample counts. *)
Lemma lag_grid_snapped_and_deduplicated_witness :
  exists lags slags,
    Measure._get_degs_lags_and_slags pair15 kw_lags
    = Ok ([-90; -30; 30]%Q, lags, slags)
    /\ slags = [0; 2; 4] /\ lags = [0; 1 # 5; 2 # 5]%Q /\ NoDup slags.
Proof.
  destruct (lag_grid_snapped_and_deduplicated pair15 kw_lags
              [0; 1 # 20; 1 # 10; 3 # 25; 3 # 10]%Q [-90; -30; 30]%Q
              Qtime2samps_even (fun s d => eq_refl) eq_refl eq_refl)
    as (lags & slags & Hrun & _ & _ & _ & Hnodup & _ & _ & _).
  exists lags, slags. split; [exact Hrun |].
  assert (E : Ok ([-90; -30; 30]%Q, lags, slags)
              = Ok ([-90; -30; 30]%Q, [0; 1 # 5; 2 # 5]%Q, [0; 2; 4])).
  { etransitivity; [symmetry; exact Hrun |]. vm_compute. reflexivity. }
  injection E as -> ->. repeat split. exact Hnodup.
Defined.

(** C2 as specified fails: with an empty confidence mask [get_errors]
    raises [IndexError] and returns no value; and so it does with a full
    mask on a grid that has one angle. *)
Lemma get_errors_empty_mask_raises :
  Measure.confidence_mask m_flat (VStr "min") = Ok cm_flat_min
  /\ empty_mask cm_flat_min
  /\ Measure.get_errors m_flat (VStr "min") = Raise IndexError
  /\ is_ok (Measure.get_errors m_flat (VStr "min")) = false
  /\ Measure.confidence_mask m_one_angle (VStr "max") = Ok cm_one_angle
  /\ full_mask cm_one_angle
  /\ Measure.get_errors m_one_angle (VStr "max") = Raise IndexError.
Proof.
  split; [reflexivity |].
  split; [intros [| [| [| r]]] [| [| [| c]]]; discriminate |].
  split; [reflexivity |]. split; [reflexivity |]. split; [reflexivity |].
  split; [| reflexivity].
  split; [discriminate |]. split; [discriminate |].
  intros [| [| r]] [| c] b; simpl; intros [= <-]; reflexivity.
Defined.

(** C2 (amended) on the flat surface, whose mask is full for a maximum and
    empty for a minimum. *)
Lemma get_errors_degenerate_witness :
  Measure.get_errors m_flat (VStr "max") = Ok (45, 3 # 20)%Q
  /\ Measure.get_errors m_flat (VStr "min") = Raise IndexError.
Proof.
  split.
  - refine (proj2 (proj2 (get_errors_degenerate m_flat (VStr "max")
                            cm_flat_max eq_refl ltac:(repeat constructor))
                         _)
                  0%Q (1 # 5)%Q 0%Q 60%Q [2 # 5]%Q [120]%Q eq_refl eq_refl).
    split; [discriminate |]. split; [discriminate |].
    intros [| [| [| r]]] [| [| [| c]]] b; simpl; intros [= <-]; reflexivity.
  - apply (proj1 (get_errors_degenerate m_flat (VStr "min") cm_flat_min
                    eq_refl ltac:(repeat constructor))).
    intros [| [| [| r]]] [| [| [| c]]]; discriminate.
Defined.

(** C4 as specified fails: the optimum of [m_basins] is node (0, 0),
    the column of the optimum has one True row, and still the lag error
    is three quarters of the lag step, because row 2 has a True node in
    another column. *)
Lemma lag_error_not_of_optimum_column :
  surface_min_at (Surface _ 3 [[1; 9; 9]; [9; 9; 9]; [9; 9; 2]]%Q) 0 0 = true
  /\ Measure.confidence_mask m_basins (VStr "min") = Ok cm_basins
  /\ Measure.lagspan (column_of cm_basins 0) = Ok 1
  /\ Measure.get_errors m_basins (VStr "min") = Ok (30, 3 # 20)%Q
  /\ (3 # 20)%Q <> fmul (fmul (of_int 1) (fsub (1 # 5) 0)%Q) quarter.
Proof. repeat split. discriminate. Defined.

(** C4 (amended) on [m_basins]: the first True row is 0 and the last one
    is 2. *)
Lemma get_errors_lag_span_witness :
  exists (first last : nat) (fdfast : Q),
    true_row cm_basins first /\ true_row cm_basins last
    /\ (forall r, true_row cm_basins r -> (first <= r <= last)%nat)
    /\ Measure.get_errors m_basins (VStr "min")
       = Ok (fdfast,
             fmul (fmul (of_int (Z.of_nat last - Z.of_nat first + 1))
                        (fsub (1 # 5) 0)%Q) quarter).
Proof.
  apply (get_errors_lag_span m_basins (VStr "min") cm_basins
           0%Q (1 # 5)%Q 0%Q 60%Q [2 # 5]%Q [120]%Q eq_refl eq_refl eq_refl).
  - repeat constructor.
  - exists 0%nat, 0%nat. reflexivity.
Defined.

(** C3 on the region split by the seam: True in columns 0, 1, 88 and 89 of
    90 is one arc of 4 columns, and the error is 4 steps of 2 degrees over
    4. *)
Lemma get_errors_fast_arc_witness :
  Measure.confidence_mask m_seam (VStr "max") = Ok cm_seam
  /\ Measure.lengthTrue cm_seam = Ok 4
  /\ shortest_arc (any_axis0 cm_seam) 4
  /\ longest_false_run (any_axis0 cm_seam ++ any_axis0 cm_seam) 86
  /\ exists fdlag, Measure.get_errors m_seam (VStr "max") = Ok (2%Q, fdlag).
Proof.
  assert (Hcm : Measure.confidence_mask m_seam (VStr "max") = Ok cm_seam)
    by (vm_compute; reflexivity).
  assert (Hlen : Measure.lengthTrue cm_seam = Ok 4)
    by (vm_compute; reflexivity).
  destruct (get_errors_fast_arc m_seam (VStr "max") cm_seam
              0%Q (1 # 5)%Q (-90)%Q (-88)%Q [] (skipn 2 degs90)
              eq_refl eq_refl Hcm)
    as (arc & gap & fdlag & Hrun & Harc & Hshort & Hlen' & Herr).
  { repeat constructor. }
  { exists 0%nat, 0%nat. reflexivity. }
  rewrite Hlen in Hlen'. injection Hlen' as <-.
  assert (Hgap : gap = 86).
  { change (Z.of_nat (length (any_axis0 cm_seam))) with 90 in Harc. lia. }
  subst gap.
  split; [exact Hcm |]. split; [exact Hlen |]. split; [exact Hshort |].
  split; [exact Hrun |].
  exists fdlag. exact Herr.
Defined.

(** C9 on two pairs that differ in the window only: [__eq__] answers True
    although the window attributes differ in width, offset and taper. *)
Theorem pair_eq_ignores_window :
  Pair.window pair15 <> Pair.window pair15_wide
  /\ Window.width (Pair.window pair15) <> Window.width (Pair.window pair15_wide)
  /\ Pair.__eq__ pair15 pair15_wide = true.
Proof.
  split; [discriminate |]. split; [discriminate |].
  apply Pair_eq_with_window. vm_compute. reflexivity.
Qed.

End Witness.

(** * Further properties *)

(** ** Windows on a trace *)

Section WindowMore.
Context `{Core} {ns : Names}.

(** The three accessors on a trace of odd length. *)
Lemma Window_accessors (w : Window.t) (N : Z) :
  N mod 2 = 1 ->
  exists s c e,
    Window.start w N = Ok s /\ Window.centre w N = Ok c
    /\ Window.end_ w N = Ok e
    /\ c = N ÷ 2 + Window.offset w
    /\ s + e = 2 * c
    /\ (Window.width w mod 2 = 1 -> 0 < Window.width w ->
        e - s + 1 = Window.width w /\ s <= c <= e).
Proof.
  unfold Window.start, Window.centre, Window.end_.
  intros HN. rewrite HN. simpl.
  eexists _, _, _.
  split; [reflexivity |]. split; [reflexivity |]. split; [reflexivity |].
  split; [reflexivity |]. split; [lia |].
  intros Hodd Hpos.
  pose proof (Z.quot_div_nonneg (Window.width w) 2 ltac:(lia) ltac:(lia)).
  pose proof (Z.div_mod (Window.width w) 2 ltac:(lia)). lia.
Qed.

(** X1.  On a trace of odd length the start, centre and end sample of a
    window are defined, the centre is the middle of start and end, and a
    window of positive odd width spans exactly [width] samples around it; on
    a trace of even length the three accessors raise. *)
Theorem Window_span (w : Window.t) (N : Z) :
  (N mod 2 = 1 ->
   exists s c e,
     Window.start w N = Ok s /\ Window.centre w N = Ok c
     /\ Window.end_ w N = Ok e
     /\ c = N ÷ 2 + Window.offset w
     /\ s + e = 2 * c
     /\ (Window.width w mod 2 = 1 -> 0 < Window.width w ->
         e - s + 1 = Window.width w /\ s <= c <= e))
  /\ (N mod 2 <> 1 ->
      let err := Raise (Exception "samps must be odd to have definite centre") in
      Window.start w N = err /\ Window.centre w N = err
      /\ Window.end_ w N = err).
Proof.
  split.
  - apply Window_accessors.
  - unfold Window.start, Window.centre, Window.end_.
    intros HN. apply Z.eqb_neq in HN. rewrite HN. simpl. repeat split.
Qed.

(** X2.  With the global [signal] unbound, as data.py leaves it, [asarray]
    never returns an array: a window that passes both range checks raises
    NameError at [signal.tukey], and every other call raises at one of the
    checks before it. *)
Theorem asarray_signal_unbound (w : Window.t) (N : Z) :
  signal_bound = false ->
  (exists err, Window.asarray w N = Raise err)
  /\ (forall s e, Window.start w N = Ok s -> Window.end_ w N = Ok e ->
        0 <= s -> e <= N ->
        Window.asarray w N = Raise (NameError "signal")).
Proof.
  intros Hsig. unfold Window.asarray, Window.signal_tukey.
  rewrite Hsig. split.
  - destruct (Window.end_ w N) as [e | err]; simpl; [| eauto].
    destruct (N <? e); [eauto |].
    destruct (Window.start w N) as [s | err]; simpl; [| eauto].
    destruct (s <? 0); eauto.
  - intros s e -> -> Hs He. simpl.
    destruct (N <? e) eqn:E1; [apply Z.ltb_lt in E1; lia |].
    destruct (s <? 0) eqn:E2; [apply Z.ltb_lt in E2; lia |].
    reflexivity.
Qed.

(** X3.  [shift] moves the start, the centre and the end of a window by the
    same number of samples and keeps its width and taper; shifting back
    restores the window. *)
Theorem Window_shift_moves (w : Window.t) (k N s c e : Z) :
  Window.start w N = Ok s -> Window.centre w N = Ok c ->
  Window.end_ w N = Ok e ->
  Window.start (Window.shift w k) N = Ok (s + k)
  /\ Window.centre (Window.shift w k) N = Ok (c + k)
  /\ Window.end_ (Window.shift w k) N = Ok (e + k)
  /\ Window.width (Window.shift w k) = Window.width w
  /\ Window.tukey_ (Window.shift w k) = Window.tukey_ w
  /\ Window.shift (Window.shift w k) (- k) = w.
Proof.
  unfold Window.start, Window.centre, Window.end_, Window.shift. simpl.
  destruct (N mod 2 =? 1); simpl; [| discriminate].
  intros [= <-] [= <-] [= <-].
  repeat split; try (f_equal; lia).
  destruct w as [wd off tk]. simpl. f_equal. lia.
Qed.

(** X4.  [Window.__init__] accepts exactly the odd widths, negative ones
    included, and stores its arguments; when [core.even] returns even
    numbers, a resized window still has an odd width. *)
Theorem Window_init_odd (width offset : Z) (tk : option F) :
  (Z.odd width = true ->
   Window.__init__ width offset tk = Ok (Window.Build _ width offset tk))
  /\ (Z.odd width = false ->
      Window.__init__ width offset tk
      = Raise (Exception "width must be an odd integer"))
  /\ ((forall z, Z.even (even z) = true) ->
      forall w r, Window.__init__ width offset tk = Ok w ->
        Z.odd (Window.width (Methods.Window_resize w r)) = true).
Proof.
  unfold Window.__init__.
  assert (Hmod : width mod 2 = if Z.odd width then 1 else 0)
    by (rewrite Zmod_odd; reflexivity).
  rewrite Hmod. split; [| split].
  - intros ->. reflexivity.
  - intros ->. reflexivity.
  - intros Heven w r. destruct (Z.odd width) eqn:Hodd; simpl; [| discriminate].
    intros [= <-]. simpl.
    rewrite Z.odd_add, Hodd. rewrite <- Z.negb_even, Heven. reflexivity.
Qed.

End WindowMore.

(** ** Constructed pairs *)

Section PairMore.
Context `{Core} {ns : Names}.

Lemma set_delta_Ok (d : pyval) (f : F) :
  Pair.set_delta d = Ok f -> ~ nonpositive d.
Proof.
  destruct d; simpl; try discriminate.
  - destruct (z <=? 0) eqn:E; [discriminate |].
    intros _. apply Z.leb_gt in E. lia.
  - destruct (fleb f0 (of_int 0)) eqn:E; [discriminate |].
    intros _. congruence.
Qed.

Lemma set_geom_Ok (g : pyval) (s : string) :
  Pair.set_geom g = Ok s -> g = VStr s /\ s ∈ Pair.possible_geoms.
Proof.
  destruct g; simpl; try discriminate.
  case_bool_decide; [| discriminate].
  intros [= <-]. split; [reflexivity | assumption].
Qed.

Lemma Data_init_invariant (cls : string) (x y : ndarray) (kw : kwargs)
    (p : Pair.t) :
  Pair.Data__init__ cls x y kw = Ok p ->
  Pair.class_ p = cls /\ Pair.x p = x /\ Pair.y p = y
  /\ ndim x = 1 /\ size x mod 2 = 1 /\ size y = size x
  /\ (exists d, kw !! "delta" = Some d /\ ~ nonpositive d
                /\ Pair.set_delta d = Ok (Pair.delta p))
  /\ Pair.geom p ∈ Pair.possible_geoms
  /\ Window.width (Pair.window p) mod 2 = 1
  /\ Window.offset (Pair.window p) = 0
  /\ Window.tukey_ (Pair.window p) = None
  /\ Pair.eig p = None.
Proof.
  unfold Pair.Data__init__.
  destruct (kw !! "delta") as [d |]; [| discriminate].
  destruct (Pair.set_delta d) as [dl | e] eqn:Hd; [| discriminate]. simpl.
  destruct (ndim x =? 1) eqn:Hnd; simpl; [| discriminate].
  destruct (size x mod 2 =? 0) eqn:Hodd; [discriminate |].
  destruct (size x =? size y) eqn:Hsz; simpl; [| discriminate].
  destruct (match kw !! "geom" with
            | Some g => Pair.set_geom g
            | None => Ok "geo"
            end) as [geom | e] eqn:Hg; [| discriminate]. simpl.
  destruct (match kw !! "cmpvecs" with
            | Some (VMatrix m) => Ok m
            | Some _ => Raise (TypeError "cmpvecs")
            | None => Ok Pair.eye2
            end) as [cv | e]; [| discriminate]. simpl.
  unfold Window.__init__.
  destruct (odd (fdiv (of_int (size x)) (of_int 3)) mod 2 =? 1) eqn:Hw;
    simpl; [| discriminate].
  intros [= <-]. simpl.
  apply Z.eqb_eq in Hnd, Hsz, Hw. apply Z.eqb_neq in Hodd.
  repeat split; try assumption; try lia.
  - pose proof (Z.mod_pos_bound (size x) 2 ltac:(lia)). lia.
  - exists d. split; [reflexivity |]. split; [| exact Hd].
    now apply set_delta_Ok with dl.
  - destruct (kw !! "geom") as [g |].
    + now apply set_geom_Ok in Hg as [_ Hg].
    + injection Hg as <-. unfold Pair.possible_geoms. left.
Qed.

Lemma Pair_init_odd_length (args : list pyval) (kw : kwargs) (p : Pair.t) :
  Pair.__init__ args kw = Ok p -> Pair._nsamps p mod 2 = 1.
Proof.
  unfold Pair.__init__, Pair._nsamps.
  destruct args as [| a0 [| a1 [| a2 rest]]]; try discriminate.
  - destruct (synth kw) as [[x y] | e]; [| discriminate]. simpl.
    intros Hinit.
    destruct (Data_init_invariant _ _ _ _ _ Hinit)
      as (_ & Hx & _ & _ & Hodd & _).
    now subst x.
  - destruct (as_ndarray a0) as [x |] eqn:E0; [| discriminate].
    destruct (as_ndarray a1) as [y |] eqn:E1; [| discriminate].
    intros Hinit.
    destruct (Data_init_invariant _ _ _ _ _ Hinit)
      as (_ & Hx & _ & _ & Hodd & _).
    now subst x.
Qed.

(** X5.  Every pair that [Pair.__init__] returns has two traces of the same
    odd length, the first of them one-dimensional, a sampling interval that
    passed the positivity check, a geometry out of geo, ray and cart, and a
    centred, untapered default window of odd width. *)
Theorem Pair_init_invariant (args : list pyval) (kw : kwargs) (p : Pair.t) :
  Pair.__init__ args kw = Ok p ->
  Pair.class_ p = "Pair"
  /\ (args = [] \/ exists a0 a1, args = [a0; a1]
                   /\ as_ndarray a0 = Some (Pair.x p)
                   /\ as_ndarray a1 = Some (Pair.y p))
  /\ ndim (Pair.x p) = 1
  /\ Pair._nsamps p mod 2 = 1
  /\ size (Pair.y p) = size (Pair.x p)
  /\ (exists d, kw !! "delta" = Some d /\ ~ nonpositive d
                /\ Pair.set_delta d = Ok (Pair.delta p))
  /\ Pair.geom p ∈ Pair.possible_geoms
  /\ Window.width (Pair.window p) mod 2 = 1
  /\ Window.offset (Pair.window p) = 0
  /\ Window.tukey_ (Pair.window p) = None.
Proof.
  unfold Pair.__init__, Pair._nsamps.
  destruct args as [| a0 [| a1 [| a2 rest]]]; try discriminate.
  - destruct (synth kw) as [[x y] | e]; [| discriminate]. simpl.
    intros Hinit.
    destruct (Data_init_invariant _ _ _ _ _ Hinit)
      as (Hc & Hx & Hy & Hnd & Hodd & Hsz & Hd & Hg & Hw & Ho & Ht & _).
    subst x y. repeat split; try assumption. now left.
  - destruct (as_ndarray a0) as [x |] eqn:E0; [| discriminate].
    destruct (as_ndarray a1) as [y |] eqn:E1; [| discriminate].
    intros Hinit.
    destruct (Data_init_invariant _ _ _ _ _ Hinit)
      as (Hc & Hx & Hy & Hnd & Hodd & Hsz & Hd & Hg & Hw & Ho & Ht & _).
    subst x y. repeat split; try assumption.
    right. now exists a0, a1.
Qed.

(** X6.  On a constructed pair the window times never raise, whichever
    window is set later: start, centre and end time are the sample numbers
    times delta, the centre sample lies midway between start and end; and
    the time axis has one entry per sample, with the centre time at the
    centre sample. *)
Theorem Pair_window_times (args : list pyval) (kw : kwargs) (p : Pair.t)
    (w : Window.t) :
  Pair.__init__ args kw = Ok p ->
  let q := Pair.with_window p w in
  (exists s c e,
     Data.wbeg q = Ok (fmul (of_int s) (Pair.delta p))
     /\ Data.wcentre q = Ok (fmul (of_int c) (Pair.delta p))
     /\ Data.wend q = Ok (fmul (of_int e) (Pair.delta p))
     /\ s + e = 2 * c
     /\ c = Pair._centresamp p + Window.offset w)
  /\ Z.of_nat (length (Data.t p)) = Pair._nsamps p
  /\ Data.t p !! Z.to_nat (Pair._centresamp p) = Some (Data._centretime p)
  /\ (Window.offset w = 0 -> Data.wcentre q = Ok (Data._centretime p)).
Proof.
  intros Hinit q.
  pose proof (Pair_init_odd_length args kw p Hinit) as Hodd.
  assert (Hn : 0 <= Pair._nsamps p) by (unfold Pair._nsamps, size; lia).
  destruct (Window_accessors w (Pair._nsamps p) Hodd)
    as (s & c & e & Hs & Hc & He & Hcv & Hmid & _).
  unfold Data.wbeg, Data.wcentre, Data.wend.
  change (Pair.window q) with w.
  change (Pair._nsamps q) with (Pair._nsamps p).
  change (Pair.delta q) with (Pair.delta p).
  rewrite Hs, Hc, He. simpl.
  split; [exists s, c, e; repeat split; assumption |].
  split; [unfold Data.t; rewrite length_map, length_seq; lia |].
  split.
  - unfold Data.t, Data._centretime, Pair._centresamp.
    fold (Pair._nsamps p).
    assert (Hq : 0 <= Pair._nsamps p ÷ 2 < Pair._nsamps p).
    { pose proof (Z.quot_div_nonneg (Pair._nsamps p) 2 ltac:(lia) ltac:(lia)).
      pose proof (Z.div_mod (Pair._nsamps p) 2 ltac:(lia)). lia. }
    rewrite list_lookup_fmap, lookup_seq_lt by lia. simpl.
    now rewrite Z2Nat.id by lia.
  - intros Hoff. unfold Data._centretime. fold (Pair._nsamps p).
    rewrite Hcv, Hoff, Z.add_0_r. reflexivity.
Qed.

End PairMore.

(** ** Construction of a measurement *)

Section MeasureInit.
Context `{DataWindow} {ns : Names}.

Lemma parse_corr_of_ok (data : Pair.t) (kw : kwargs) (key : string) :
  correction_ok kw key <-> exists r, Measure.parse_corr data kw key = Ok r.
Proof.
  unfold correction_ok, Measure.parse_corr. split.
  - intros [-> | (deg & lg & ->)]; eauto.
  - intros [r Hr]. destruct (kw !! key) as [v |]; [| now left].
    destruct v as [| | | | t | | |]; try discriminate.
    destruct t as [| deg [| lg [| ? ?]]]; try discriminate.
    right. now exists deg, lg.
Qed.

(** X7.  [Measure.__init__] returns a measurement exactly when the lag grid
    and the angle grid parse and each of the two corrections is absent or a
    tuple of length 2. *)
Theorem Measure_init_succeeds_iff (data : Pair.t)
    (func : list F -> list F -> list F) (kw : kwargs) :
  (exists m, Measure.__init__ data func kw = Ok m)
  <-> ((exists lags, Measure._parse_lags data kw = Ok lags)
       /\ (exists degs, Measure._parse_degs kw = Ok degs)
       /\ correction_ok kw "rcvcorr" /\ correction_ok kw "srccorr").
Proof.
  rewrite (parse_corr_of_ok data kw "rcvcorr").
  rewrite (parse_corr_of_ok data kw "srccorr").
  unfold Measure.__init__, Measure._get_degs_lags_and_slags. split.
  - intros [m Hm].
    destruct (Measure._parse_lags data kw) as [lags | e]; [| discriminate].
    simpl in Hm.
    destruct (Measure._parse_degs kw) as [degs | e]; [| discriminate].
    simpl in Hm.
    destruct (Measure.parse_corr data kw "rcvcorr") as [[r_ r] | e];
      [| discriminate]. simpl in Hm.
    destruct (Measure.parse_corr data kw "srccorr") as [[s_ s] | e];
      [| discriminate].
    repeat split; eauto.
  - intros ((lags & ->) & (degs & ->) & ([r_ r] & ->) & ([s_ s] & ->)).
    simpl. eauto.
Qed.

(** X8.  A measurement keeps its data, objective and keyword arguments; the
    name defaults to Untitled; a correction [(deg, lag)] is stored with the
    lag snapped to [samps = time2samps(lag, delta, 'even')] samples: the
    search uses [(deg, samps)] and the public attribute reports
    [(deg, samps * delta)], not the requested lag; without the keyword both
    are unset.  A new measurement has no error surface. *)
Theorem Measure_init_fields (data : Pair.t)
    (func : list F -> list F -> list F) (kw : kwargs) (m : Measure.t) :
  Measure.__init__ data func kw = Ok m ->
  let snapped key priv pub :=
    match kw !! key with
    | None => priv = None /\ pub = None
    | Some v =>
      exists deg lag,
        v = VTuple [deg; lag]
        /\ priv = Some (deg, time2samps lag (Pair.delta data) "even")
        /\ pub = Some (deg,
                       fmul (of_int (time2samps lag (Pair.delta data) "even"))
                            (Pair.delta data))
    end in
  Measure.data m = data /\ Measure.func m = func /\ Measure.kwargs_ m = kw
  /\ Measure.name m = default (VStr "Untitled") (kw !! "name")
  /\ snapped "rcvcorr" (Measure.__rcvcorr m) (Measure.rcvcorr m)
  /\ snapped "srccorr" (Measure.__srccorr m) (Measure.srccorr m)
  /\ length (Measure.lags m) = length (Measure.slags m)
  /\ Measure.errsurf m = None /\ Measure.conf95level m = None.
Proof.
  intros Hinit snapped.
  destruct (init_fields _ _ _ _ Hinit) as (Hd & Hf & Hgrid & Hrcv & Hsrc).
  assert (Hsnap : forall key priv pub,
            Measure.parse_corr data kw key = Ok (priv, pub) ->
            snapped key priv pub).
  { intros key priv pub Hp. unfold snapped.
    apply parse_corr_Ok in Hp as [(-> & -> & ->) | (deg & lg & -> & -> & ->)].
    - split; reflexivity.
    - exists deg, lg. repeat split. }
  assert (Hlen : length (Measure.lags m) = length (Measure.slags m)).
  { unfold Measure._get_degs_lags_and_slags in Hgrid.
    destruct (Measure._parse_lags data kw) as [lags | e]; [| discriminate].
    simpl in Hgrid.
    destruct (Measure._parse_degs kw) as [degs | e]; [| discriminate].
    simpl in Hgrid. injection Hgrid as _ <- <-. apply length_map. }
  pose proof (Hsnap _ _ _ Hrcv) as Srcv.
  pose proof (Hsnap _ _ _ Hsrc) as Ssrc.
  assert (Hrest : Measure.kwargs_ m = kw
                  /\ Measure.name m = default (VStr "Untitled") (kw !! "name")
                  /\ Measure.errsurf m = None /\ Measure.conf95level m = None).
  { clear - Hinit. unfold Measure.__init__ in Hinit.
    destruct (Measure._get_degs_lags_and_slags data kw) as [[[dg lg] sl] | e];
      [| discriminate]. simpl in Hinit.
    destruct (Measure.parse_corr data kw "rcvcorr") as [[r_ r] | e];
      [| discriminate]. simpl in Hinit.
    destruct (Measure.parse_corr data kw "srccorr") as [[s_ s] | e];
      [| discriminate]. simpl in Hinit.
    injection Hinit as <-. simpl. repeat split. }
  destruct Hrest as (Hkw & Hname & Hsurf & Hlevel).
  split; [exact Hd |]. split; [exact Hf |]. split; [exact Hkw |].
  split; [exact Hname |]. split; [exact Srcv |]. split; [exact Ssrc |].
  split; [exact Hlen |]. split; assumption.
Qed.

Lemma unique_length (l : list Z) : (length (unique l) <= length l)%nat.
Proof.
  unfold unique. induction l as [| h t IH]; simpl; [lia |].
  assert (Hins : forall z l', (length (insert_unique z l') <= S (length l'))%nat).
  { intros z l'. induction l' as [| a l' IH']; simpl; [lia |].
    destruct (z <? a); [simpl; lia |].
    destruct (z =? a); simpl; lia. }
  specialize (Hins h (foldr insert_unique [] t)). lia.
Qed.

Lemma insert_unique_above (z : Z) (l : list Z) :
  Forall (fun x => z < x) l -> insert_unique z l = z :: l.
Proof.
  destruct l as [| h t]; [reflexivity |]. intros Hl.
  apply Forall_cons in Hl as [Hh _]. simpl.
  apply Z.ltb_lt in Hh. now rewrite Hh.
Qed.

Lemma unique_sorted_id (l : list Z) :
  StronglySorted Z.lt l -> unique l = l.
Proof.
  unfold unique. induction 1 as [| h t Hs IH Hh]; simpl; [reflexivity |].
  rewrite IH. now apply insert_unique_above.
Qed.

(** X9.  The lag grid never has more entries than the request, it has one
    lag time per sample lag, and an empty request gives an empty grid; when
    the requested lags fall on strictly increasing sample counts nothing is
    collapsed or reordered: the grid has one entry per requested lag, in the
    order of the request. *)
Theorem lag_grid_size (data : Pair.t) (kw : kwargs) (requested degs lags : list F)
    (slags : list Z) :
  Measure._parse_lags data kw = Ok requested ->
  Measure._get_degs_lags_and_slags data kw = Ok (degs, lags, slags) ->
  let samps := map (fun t => time2samps t (Pair.delta data) "even") requested in
  (length slags <= length requested)%nat
  /\ length lags = length slags
  /\ (requested = [] -> slags = [] /\ lags = [])
  /\ (StronglySorted Z.lt samps ->
      slags = samps
      /\ lags = map (fun t => samps2time
                                (time2samps t (Pair.delta data) "even")
                                (Pair.delta data)) requested).
Proof.
  intros Hreq Hrun samps.
  unfold Measure._get_degs_lags_and_slags in Hrun. rewrite Hreq in Hrun.
  simpl in Hrun.
  destruct (Measure._parse_degs kw) as [dg | e]; [| discriminate].
  simpl in Hrun. injection Hrun as _ <- <-. fold samps.
  split; [| split; [| split]].
  - pose proof (unique_length samps) as Hlen.
    unfold samps in Hlen at 2. rewrite length_map in Hlen. exact Hlen.
  - apply length_map.
  - intros ->. split; reflexivity.
  - intros Hs. rewrite (unique_sorted_id samps Hs).
    split; [reflexivity |]. unfold samps. now rewrite map_map.
Qed.

End MeasureInit.

(** ** More on the grid search *)

Section SearchMore.
Context `{DataWindow} {ns : Names}.

Lemma mapM_Ok_forall {A B} (f : A -> result B) (l : list A) (out : list B) :
  mapM f l = Ok out -> forall b, b ∈ out -> exists a, a ∈ l /\ f a = Ok b.
Proof.
  revert out. induction l as [| a l IH]; intros out; simpl.
  - intros [= <-] b Hb. now apply elem_of_nil in Hb.
  - destruct (f a) as [b0 | e] eqn:Hfa; simpl; [| discriminate].
    destruct (mapM f l) as [bs | e]; simpl; [| discriminate].
    intros [= <-] b Hb. apply elem_of_cons in Hb as [-> | Hb].
    + exists a. split; [left | exact Hfa].
    + destruct (IH bs eq_refl b Hb) as (a' & Ha' & Hf).
      exists a'. split; [now right | exact Hf].
Qed.

Lemma mapM_Raise_head {A B} (f : A -> result B) (a : A) (l : list A) (e : exn) :
  f a = Raise e -> mapM f (a :: l) = Raise e.
Proof. intros Hf. simpl. now rewrite Hf. Qed.

(** X10.  A search that returns gives the full surface: one row per
    candidate angle and in every row one node per sample lag; the node of
    angle [i] and lag [j] is a value of the objective. *)
Theorem gridsearch_shape (self : Measure.t) (kw : kwargs)
    (out : list (list (list F))) :
  Measure.gridsearch self kw = Ok out ->
  length out = length (Measure.degs self)
  /\ (forall row, row ∈ out -> length row = length (Measure.slags self))
  /\ (forall i j : nat,
        (i < length (Measure.degs self))%nat ->
        (j < length (Measure.slags self))%nat ->
        exists row node (x y : list F),
          out !! i = Some row /\ row !! j = Some node
          /\ node = Measure.func self x y).
Proof.
  intros Hout. rewrite gridsearch_unfold in Hout.
  destruct (Pair.copy _) as [cp | e]; [| discriminate]. simpl in Hout.
  destruct (Pair.rotateto _ _) as [c | e]; [| discriminate]. simpl in Hout.
  destruct (Measure.window_bounds _) as [wb | e]; [| discriminate].
  simpl in Hout.
  destruct (if has_key kw "rcvcorr" then _ else _) as [[x0 y0] | e];
    [| discriminate]. simpl in Hout.
  destruct (Measure.srccorr_closure self kw) as [sc | e]; [| discriminate].
  simpl in Hout.
  pose proof (mapM_Ok_lookup _ _ _ Hout) as [Hlen Hrows].
  split; [exact Hlen |]. split.
  - intros row Hrow.
    destruct (mapM_Ok_forall _ _ _ Hout row Hrow) as (ang & _ & Hang).
    now apply mapM_Ok_lookup in Hang as [Hl _].
  - intros i j Hi Hj.
    destruct (lookup_lt_is_Some_2 _ _ Hi) as [ang Hang].
    destruct (lookup_lt_is_Some_2 _ _ Hj) as [shift Hshift].
    destruct (Hrows i ang Hang) as (row & Hrow & Hr).
    apply mapM_Ok_lookup in Hr as [_ Hnodes].
    destruct (Hnodes j shift Hshift) as (node & Hnode & Hn).
    unfold Measure.getout in Hn.
    destruct (lag _ _ (- shift)) as [x1 y1].
    destruct (sc x1 y1 ang) as [x2 y2]. simpl in Hn.
    destruct (chop x2 y2 _ _) as [[x3 y3] | e]; [| discriminate].
    simpl in Hn.
    destruct (Measure.rotpol_closure kw x3 y3 ang) as [[x4 y4] | e];
      [| discriminate].
    simpl in Hn. injection Hn as <-.
    now exists row, (Measure.func self x4 y4), x4, y4.
Qed.

(** X11.  A search that is given a correction keyword on a measurement
    built without that correction never returns a surface: the private
    attribute it reads was never set. *)
Theorem gridsearch_unconfigured_correction (data : Pair.t)
    (func : list F -> list F -> list F) (kw kw' : kwargs) (m : Measure.t) :
  Measure.__init__ data func kw = Ok m ->
  (kw !! "rcvcorr" = None /\ has_key kw' "rcvcorr" = true)
  \/ (kw !! "srccorr" = None /\ has_key kw' "srccorr" = true) ->
  is_ok (Measure.gridsearch m kw') = false.
Proof.
  intros Hinit Hkey.
  destruct (init_fields _ _ _ _ Hinit) as (_ & _ & _ & Hrcv & Hsrc).
  rewrite gridsearch_unfold.
  destruct (Pair.copy _) as [cp | e]; [| reflexivity]. simpl.
  destruct (Pair.rotateto _ _) as [c | e]; [| reflexivity]. simpl.
  destruct (Measure.window_bounds _) as [wb | e]; [| reflexivity]. simpl.
  destruct Hkey as [[Hnone Hk] | [Hnone Hk]].
  - rewrite Hk.
    apply parse_corr_Ok in Hrcv as [(_ & -> & _) | (deg & lg & E & _)];
      [reflexivity | congruence].
  - destruct (if has_key kw' "rcvcorr" then _ else _) as [[x0 y0] | e];
      [| reflexivity]. simpl.
    unfold Measure.srccorr_closure. rewrite Hk.
    apply parse_corr_Ok in Hsrc as [(_ & -> & _) | (deg & lg & E & _)];
      [reflexivity | congruence].
Qed.

(** X12.  With [mode='rotpol'] and no [pol] keyword the search never
    returns a node: if it returns at all, the grid has no angle or no
    lag. *)
Theorem gridsearch_rotpol_needs_pol (self : Measure.t) (kw : kwargs)
    (out : list (list (list F))) :
  kw !! "mode" = Some (VStr "rotpol") -> kw !! "pol" = None ->
  Measure.gridsearch self kw = Ok out ->
  (Measure.degs self = [] /\ out = [])
  \/ (Measure.slags self = [] /\ Forall (fun row => row = []) out).
Proof.
  intros Hmode Hpol Hout. rewrite gridsearch_unfold in Hout.
  destruct (Pair.copy _) as [cp | e]; [| discriminate]. simpl in Hout.
  destruct (Pair.rotateto _ _) as [c | e]; [| discriminate]. simpl in Hout.
  destruct (Measure.window_bounds _) as [wb | e]; [| discriminate].
  simpl in Hout.
  destruct (if has_key kw "rcvcorr" then _ else _) as [[x0 y0] | e];
    [| discriminate]. simpl in Hout.
  destruct (Measure.srccorr_closure self kw) as [sc | e]; [| discriminate].
  simpl in Hout.
  destruct (Measure.degs self) as [| ang degs].
  - left. simpl in Hout. injection Hout as <-. split; reflexivity.
  - right.
    destruct (Measure.slags self) as [| shift slags].
    + split; [reflexivity |].
      apply Forall_forall. intros row Hrow.
      destruct (mapM_Ok_forall _ _ _ Hout row Hrow) as (a & _ & Ha).
      simpl in Ha. now injection Ha as <-.
    + exfalso. simpl in Hout.
      assert (Hnode : forall x y,
                exists e, Measure.getout self
                  (Measure.win (_w0 (Measure.data self))
                               (_w1 (Measure.data self)))
                  sc (Measure.rotpol_closure kw) x y ang shift = Raise e).
      { intros x y. unfold Measure.getout.
        destruct (lag x y (- shift)) as [x1 y1].
        destruct (sc x1 y1 ang) as [x2 y2]. simpl.
        destruct (chop x2 y2 _ _) as [[x3 y3] | e]; [| eauto]. simpl.
        unfold Measure.rotpol_closure. rewrite Hmode. simpl.
        unfold Measure.pol_minus. rewrite Hpol. simpl. eauto. }
      destruct (Hnode (rotate x0 y0 ang).1 (rotate x0 y0 ang).2) as [e He].
      rewrite He in Hout. discriminate Hout.
Qed.

End SearchMore.

(** ** More on the error bars *)

Section ErrorsMore.
Context `{Float}.

(** X13.  [get_errors] needs two lags and two angles for the grid steps: on a
    lag grid or an angle grid with fewer entries it raises IndexError,
    whatever the surface type and the error surface are. *)
Theorem get_errors_small_grid (self : Measure.t) (surftype : pyval) :
  (length (Measure.lags self) < 2)%nat \/ (length (Measure.degs self) < 2)%nat ->
  Measure.get_errors self surftype = Raise IndexError.
Proof.
  intros Hsmall. unfold Measure.get_errors.
  destruct (Measure.lags self) as [| l0 [| l1 ls]] eqn:El.
  - reflexivity.
  - reflexivity.
  - rewrite index_1, index_0. simpl.
    destruct Hsmall as [Hl | Hd]; [simpl in Hl; lia |].
    destruct (Measure.degs self) as [| d0 [| d1 ds]].
    + reflexivity.
    + reflexivity.
    + simpl in Hd. lia.
Qed.

(** X14.  On a grid with two or more lags and angles, [get_errors] returns
    only for the surface types min and max: any other value, the default
    None among them, raises ValueError before the surface is read. *)
Theorem get_errors_surftype (self : Measure.t) (surftype : pyval)
    (l0 l1 d0 d1 : F) (ls ds : list F) :
  Measure.lags self = l0 :: l1 :: ls ->
  Measure.degs self = d0 :: d1 :: ds ->
  surftype <> VStr "min" -> surftype <> VStr "max" ->
  Measure.get_errors self surftype
  = Raise (ValueError "surftype must be min or max").
Proof.
  intros Hl Hd Hmin Hmax. unfold Measure.get_errors.
  rewrite Hl, Hd, !index_1, !index_0. simpl.
  unfold Measure.confidence_mask.
  destruct surftype as [| | | st | | | |]; try reflexivity.
  destruct (String.eqb st "max") eqn:E1;
    [apply String.eqb_eq in E1; congruence |].
  destruct (String.eqb st "min") eqn:E2;
    [apply String.eqb_eq in E2; congruence |].
  reflexivity.
Qed.

End ErrorsMore.

Section MaskOrder.

Lemma shortest_arc_unique (b : list bool) (l1 l2 : Z) :
  shortest_arc b l1 -> shortest_arc b l2 -> l1 = l2.
Proof.
  intros [(k1 & Hk1 & Hc1) Hm1] [(k2 & Hk2 & Hc2) Hm2].
  specialize (Hm1 k2 l2 Hk2 Hc2). specialize (Hm2 k1 l1 Hk1 Hc1). lia.
Qed.

Lemma lengthTrue_spec (m : mask) (len : Z) :
  wf_mask m -> nonempty_mask m ->
  Measure.lengthTrue m = Ok len <-> shortest_arc (any_axis0 m) len.
Proof.
  intros Hwf Hne.
  destruct (lengthTrue_arc m Hwf Hne) as (gap & Hlen & _ & Harc).
  rewrite Hlen. split.
  - now intros [= <-].
  - intros Hlen'. f_equal. now apply shortest_arc_unique with (any_axis0 m).
Qed.

(** X15.  On a mask with a True node both extents are at least one grid
    step and at most the whole axis: the lag span lies between 1 and the
    number of rows, the arc of the True columns between 1 and the number of
    columns. *)
Theorem error_extents_bounded (m : mask) :
  wf_mask m -> nonempty_mask m ->
  exists span arc,
    Measure.lagspan m = Ok span /\ Measure.lengthTrue m = Ok arc
    /\ 1 <= span <= Z.of_nat (length (rows m))
    /\ 1 <= arc <= Z.of_nat (ncols m).
Proof.
  intros Hwf Hne.
  destruct (lagspan_first_last m Hne)
    as (first & last & Hspan & Hfirst & Hlast & Hall).
  destruct (lengthTrue_arc m Hwf Hne) as (gap & Hlen & _ & Hex & Hmin).
  rewrite any_axis0_length in Hex, Hmin by assumption.
  exists (Z.of_nat last - Z.of_nat first + 1), (Z.of_nat (ncols m) - gap).
  split; [exact Hspan |]. split; [exact Hlen |].
  destruct Hne as (r & c & Hrc).
  assert (Hc : any_axis0 m !! c = Some true)
    by (apply any_axis0_lookup; eauto).
  assert (Hcn : (c < ncols m)%nat).
  { apply lookup_lt_Some in Hc. now rewrite any_axis0_length in Hc. }
  split; [| split].
  - pose proof (Hall first Hfirst) as Hf.
    destruct Hlast as [c' Hc']. unfold node in Hc'.
    destruct (rows m !! last) eqn:E; [| discriminate Hc'].
    apply lookup_lt_Some in E. lia.
  - destruct Hex as (k & Hk & Hcov).
    specialize (Hcov c Hc). unfold on_arc in Hcov.
    rewrite any_axis0_length in Hcov by assumption.
    pose proof (Z.mod_pos_bound (Z.of_nat c - k) (Z.of_nat (ncols m))
                  ltac:(lia)). lia.
  - apply (Hmin 0); [lia |].
    intros i Hi. unfold on_arc.
    apply lookup_lt_Some in Hi.
    rewrite any_axis0_length in * by assumption.
    apply Z.mod_pos_bound. lia.
Qed.

(** X16.  A larger confidence region never has smaller error bars: if every
    True node of [m] is a True node of [m'], a mask of the same number of
    columns, then the lag span and the arc of [m] are at most those of
    [m']. *)
Theorem error_extents_monotone (m m' : mask) (span span' arc arc' : Z) :
  wf_mask m -> wf_mask m' -> ncols m = ncols m' ->
  nonempty_mask m -> submask m m' ->
  Measure.lagspan m = Ok span -> Measure.lagspan m' = Ok span' ->
  Measure.lengthTrue m = Ok arc -> Measure.lengthTrue m' = Ok arc' ->
  span <= span' /\ arc <= arc'.
Proof.
  intros Hwf Hwf' Hcols Hne Hsub Hspan Hspan' Harc Harc'.
  assert (Hne' : nonempty_mask m').
  { destruct Hne as (r & c & Hrc). exists r, c. now apply Hsub. }
  assert (Hrow : forall r, true_row m r -> true_row m' r).
  { intros r [c Hc]. exists c. now apply Hsub. }
  split.
  - destruct (lagspan_first_last m Hne)
      as (f & l & Hs & Hf & Hl & _).
    destruct (lagspan_first_last m' Hne')
      as (f' & l' & Hs' & _ & _ & Hall').
    rewrite Hs in Hspan. rewrite Hs' in Hspan'.
    injection Hspan as <-. injection Hspan' as <-.
    pose proof (Hall' f (Hrow f Hf)). pose proof (Hall' l (Hrow l Hl)). lia.
  - apply lengthTrue_spec in Harc as [_ Hmin]; try assumption.
    apply lengthTrue_spec in Harc' as [(k & Hk & Hcov) _]; try assumption.
    rewrite any_axis0_length in Hmin by assumption.
    rewrite any_axis0_length in Hk by assumption.
    apply (Hmin k); [lia |].
    intros i Hi. unfold on_arc. rewrite any_axis0_length by assumption.
    apply any_axis0_lookup in Hi as [r Hr]; [| assumption].
    assert (Hi' : any_axis0 m' !! i = Some true).
    { apply any_axis0_lookup; [assumption |]. exists r. now apply Hsub. }
    specialize (Hcov i Hi'). unfold on_arc in Hcov.
    rewrite any_axis0_length in Hcov by assumption.
    now rewrite Hcols.
Qed.

End MaskOrder.

(** ** The seam of the angle axis *)

Section Seam.

Lemma existsb_id_elem (l : list bool) : existsb id l = true <-> true ∈ l.
Proof.
  rewrite existsb_id_lookup. rewrite list_elem_of_lookup. reflexivity.
Qed.

Lemma existsb_id_rotate (k : nat) (l : list bool) :
  existsb id (list.rotate k l) = existsb id l.
Proof.
  apply eq_true_iff_eq. rewrite !existsb_id_elem. apply elem_of_rotate.
Qed.

Lemma roll_columns_axis1 (k : nat) (m : mask) :
  any_axis1 (roll_columns k m) = any_axis1 m.
Proof.
  unfold any_axis1, roll_columns. simpl. rewrite map_map.
  apply map_ext. intros row. apply existsb_id_rotate.
Qed.

Lemma roll_columns_wf (k : nat) (m : mask) :
  wf_mask m -> wf_mask (roll_columns k m).
Proof.
  unfold wf_mask, roll_columns. simpl. intros Hwf.
  apply Forall_fmap. eapply Forall_impl; [exact Hwf |].
  simpl. intros row Hrow. now rewrite length_rotate.
Qed.

Lemma roll_columns_node (k : nat) (m : mask) (r c : nat) :
  wf_mask m ->
  node (roll_columns k m) r c = Some true
  <-> (c < ncols m)%nat
      /\ node m r (rotate_nat_add k c (ncols m)) = Some true.
Proof.
  intros Hwf. unfold node, roll_columns. simpl.
  rewrite list_lookup_fmap.
  destruct (rows m !! r) as [row |] eqn:Hr; simpl.
  - assert (Hlen : length row = ncols m).
    { unfold wf_mask in Hwf. rewrite Forall_forall in Hwf. apply Hwf.
      apply list_elem_of_lookup. eauto. }
    rewrite lookup_rotate_r_Some, Hlen. tauto.
  - split; [discriminate | intros [_ E]; discriminate E].
Qed.

Lemma roll_columns_axis0 (k : nat) (m : mask) (c : nat) :
  wf_mask m ->
  any_axis0 (roll_columns k m) !! c = Some true
  <-> (c < ncols m)%nat
      /\ any_axis0 m !! rotate_nat_add k c (ncols m) = Some true.
Proof.
  intros Hwf.
  rewrite any_axis0_lookup by now apply roll_columns_wf.
  rewrite any_axis0_lookup by assumption.
  split.
  - intros [r Hr]. apply roll_columns_node in Hr as [Hc Hr]; eauto.
  - intros [Hc [r Hr]]. exists r. now apply roll_columns_node.
Qed.

(** The arcs of a column mask and of the same mask read from [k] columns
    later are the same arcs, started [k] columns earlier. *)
Lemma shortest_arc_rotated (b b' : list bool) (k : nat) (len : Z) :
  length b' = length b ->
  (forall i : nat, b' !! i = Some true
                   <-> (i < length b)%nat
                       /\ b !! rotate_nat_add k i (length b) = Some true) ->
  shortest_arc b len -> shortest_arc b' len.
Proof.
  intros Hlen Hrot [(j & Hj & Hcov) Hmin].
  set (n := Z.of_nat (length b)) in *.
  assert (Hn : 0 < n) by lia.
  assert (Hn' : Z.of_nat (length b') = n) by (unfold n; lia).
  unfold shortest_arc. rewrite Hn'. split.
  - exists ((j - Z.of_nat k) mod n).
    split; [apply Z.mod_pos_bound; lia |].
    intros i Hi. unfold on_arc. rewrite Hn'.
    apply Hrot in Hi as [Hin Hi].
    specialize (Hcov _ Hi). unfold on_arc in Hcov. fold n in Hcov.
    unfold rotate_nat_add in Hcov. fold n in Hcov.
    rewrite Z2Nat.id in Hcov by (apply Z.mod_pos_bound; lia).
    rewrite Zminus_mod_idemp_l in Hcov.
    rewrite Zminus_mod_idemp_r.
    replace (Z.of_nat i - (j - Z.of_nat k))
      with (Z.of_nat k + Z.of_nat i - j) by lia.
    exact Hcov.
  - intros j' len' Hj' Hcov'.
    apply (Hmin ((j' + Z.of_nat k) mod n)); [apply Z.mod_pos_bound; lia |].
    intros i0 Hi0. unfold on_arc. fold n.
    assert (Hi0n : 0 <= Z.of_nat i0 < n).
    { apply lookup_lt_Some in Hi0. unfold n. lia. }
    set (i := (Z.of_nat i0 - Z.of_nat k) mod n).
    assert (Hib : 0 <= i < n) by (apply Z.mod_pos_bound; lia).
    assert (Hi : b' !! Z.to_nat i = Some true).
    { apply Hrot. split; [unfold n in Hib; lia |].
      unfold rotate_nat_add. fold n. rewrite Z2Nat.id by lia.
      unfold i. rewrite Zplus_mod_idemp_r.
      replace (Z.of_nat k + (Z.of_nat i0 - Z.of_nat k)) with (Z.of_nat i0)
        by lia.
      rewrite Z.mod_small by lia. now rewrite Nat2Z.id. }
    specialize (Hcov' _ Hi). unfold on_arc in Hcov'. rewrite Hn' in Hcov'.
    rewrite Z2Nat.id in Hcov' by lia. unfold i in Hcov'.
    rewrite Zminus_mod_idemp_l in Hcov'.
    rewrite Zminus_mod_idemp_r.
    replace (Z.of_nat i0 - (j' + Z.of_nat k))
      with (Z.of_nat i0 - Z.of_nat k - j') by lia.
    exact Hcov'.
Qed.

Lemma roll_columns_nonempty (k : nat) (m : mask) :
  wf_mask m -> nonempty_mask m -> nonempty_mask (roll_columns k m).
Proof.
  intros Hwf (r & c & Hrc).
  assert (Hc : (c < ncols m)%nat).
  { assert (Hc0 : any_axis0 m !! c = Some true)
      by (apply any_axis0_lookup; eauto).
    apply lookup_lt_Some in Hc0. now rewrite any_axis0_length in Hc0. }
  exists r, (rotate_nat_sub k c (ncols m)).
  apply roll_columns_node; [assumption |].
  split; [apply rotate_nat_sub_lt; lia |].
  now rewrite rotate_nat_add_sub.
Qed.

(** X17.  The error bars do not depend on where the angle axis is cut: a
    confidence mask and the same mask with its columns rotated by any number
    of places give the same lag span, the same arc and the same errors. *)
Theorem errors_seam_invariant `{Float} (k : nat) (m : mask)
    (fast_step lag_step : F) :
  wf_mask m -> nonempty_mask m ->
  Measure.lagspan (roll_columns k m) = Measure.lagspan m
  /\ Measure.lengthTrue (roll_columns k m) = Measure.lengthTrue m
  /\ Measure.mask_errors (roll_columns k m) fast_step lag_step
     = Measure.mask_errors m fast_step lag_step.
Proof.
  intros Hwf Hne.
  assert (Hspan : Measure.lagspan (roll_columns k m) = Measure.lagspan m).
  { unfold Measure.lagspan. now rewrite roll_columns_axis1. }
  assert (Harc : Measure.lengthTrue (roll_columns k m) = Measure.lengthTrue m).
  { destruct (lengthTrue_arc m Hwf Hne) as (gap & Hlen & _ & Hshort).
    rewrite Hlen.
    apply lengthTrue_spec;
      [now apply roll_columns_wf | now apply roll_columns_nonempty |].
    apply shortest_arc_rotated with (any_axis0 m) k; [| | exact Hshort].
    - rewrite !any_axis0_length;
        [reflexivity | assumption | now apply roll_columns_wf].
    - intros i. rewrite any_axis0_length by assumption.
      now apply roll_columns_axis0. }
  split; [exact Hspan |]. split; [exact Harc |].
  unfold Measure.mask_errors. now rewrite Hspan, Harc.
Qed.

End Seam.

(** ** Corrected data, sample counts and equality *)

Section MethodsMore.
Context `{Core} {ns : Names}.

Lemma call_unsplit_None (obj : option Pair.t) (fast lag : F)
    (r : option Pair.t) :
  Methods.call_unsplit obj fast lag = Ok r -> r = None /\ obj <> None.
Proof.
  destruct obj as [p |]; simpl; [| discriminate].
  destruct (Methods.Pair_unsplit p fast lag); simpl; [| discriminate].
  intros [= <-]. split; [reflexivity | discriminate].
Qed.

(** X18.  [Measure.data_corr] never returns corrected data.  In the
    sources as they stand it stops at [self.data.copy()].  And whatever the
    unbound names are bound to: [Pair.unsplit] works in place and returns
    None, and [data_corr] rebinds its variable to that value, so the only
    value it can return is None, and that only for a measurement without
    corrections. *)
Theorem Measure_data_corr_returns_no_pair (self : Measure.t) (fast lag : F) :
  (io_bound = false ->
   Methods.Measure_data_corr self fast lag = Raise (NameError "io"))
  /\ (forall r, Methods.Measure_data_corr self fast lag = Ok r ->
        r = None /\ Measure.rcvcorr self = None
        /\ Measure.srccorr self = None).
Proof.
  unfold Methods.Measure_data_corr. split.
  - intros Hio. unfold Pair.copy. now rewrite Hio.
  - intros r Hr.
    destruct (Pair.copy (Measure.data self)) as [cp | e];
      simpl in Hr; [| discriminate Hr].
    destruct (Measure.rcvcorr self) as [[deg tl] |]; simpl in Hr.
    + destruct (Methods.Pair_unsplit cp deg tl);
        simpl in Hr; discriminate Hr.
    + destruct (Methods.Pair_unsplit cp fast lag);
        simpl in Hr; [| discriminate Hr].
      destruct (Measure.srccorr self) as [[deg tl] |]; simpl in Hr;
        [discriminate Hr |].
      injection Hr as <-. repeat split.
Qed.

End MethodsMore.

Section EvenSamples.

(** X19.  The sample count that [EigenM.__init__] uses for a correction is
    even: an even count is kept and an odd count is raised by one, so the
    count is never lowered and rounding twice changes nothing more. *)
Theorem even_nsamps_rounds_up (n : Z) :
  Z.even (EigenM.even_nsamps n) = true
  /\ n <= EigenM.even_nsamps n <= n + 1
  /\ (Z.even n = true -> EigenM.even_nsamps n = n)
  /\ (Z.odd n = true -> EigenM.even_nsamps n = n + 1)
  /\ EigenM.even_nsamps (EigenM.even_nsamps n) = EigenM.even_nsamps n.
Proof.
  assert (Hcase : forall k, EigenM.even_nsamps k
                            = if Z.even k then k else k + 1).
  { intros k. unfold EigenM.even_nsamps. rewrite Zmod_even.
    now destruct (Z.even k). }
  rewrite !Hcase.
  destruct (Z.even n) eqn:E.
  - rewrite E. split; [reflexivity |]. split; [lia |].
    split; [reflexivity |]. split; [| reflexivity].
    rewrite <- Z.negb_even, E. discriminate.
  - assert (E' : Z.even (n + 1) = true).
    { rewrite Z.even_add, E. reflexivity. }
    rewrite E'. split; [reflexivity |]. split; [lia |].
    split; [discriminate |]. split; reflexivity.
Qed.

End EvenSamples.

Section PairEqMore.
Context `{Float} {ns : Names}.

Lemma Pair_dict_eigvals (p : Pair.t) :
  is_Some (Pair.__dict__ p !! "eigvals") <-> Pair.eig p <> None.
Proof.
  unfold Pair.__dict__.
  destruct (Pair.eig p) as [[vals vecs] |];
    destruct (String.eqb (Pair.class_ p) "Pair"); simpl.
  - rewrite lookup_insert_eq. split; [discriminate | eauto].
  - rewrite lookup_insert_eq. split; [discriminate | eauto].
  - split; [intros [? E]; discriminate E | congruence].
  - split; [intros [? E]; discriminate E | congruence].
Qed.

(** X20.  Two objects of different classes are not equal, and neither are a
    pair that has stored eigenvalues ([eigen()]) and a pair that has not:
    their attribute names differ, whatever the values are.  A call of
    [eigen()] either stores them or raises AttributeError for [data]. *)
Theorem Pair_eq_classes_and_keys (p q : Pair.t) :
  (Pair.class_ p <> Pair.class_ q -> Pair.__eq__ p q = false)
  /\ (Pair.eig p = None -> Pair.eig q <> None ->
      Pair.__eq__ p q = false /\ Pair.__eq__ q p = false)
  /\ (forall vals vecs, Pair.eig p = None ->
        match Pair.eigen p vals vecs with
        | Ok q' => Pair.__eq__ p q' = false
        | Raise e => e = AttributeError "data"
        end).
Proof.
  assert (Hkeys : forall a b, Pair.eig a = None -> Pair.eig b <> None ->
            dom (Pair.__dict__ a) <> dom (Pair.__dict__ b)).
  { intros a b Ha Hb Hdom.
    assert (Hin : "eigvals" ∈ dom (Pair.__dict__ b))
      by (apply elem_of_dom, Pair_dict_eigvals; exact Hb).
    rewrite <- Hdom in Hin.
    apply elem_of_dom, Pair_dict_eigvals in Hin. congruence. }
  assert (Hneq : forall a b, Pair.eig a = None -> Pair.eig b <> None ->
            Pair.__eq__ a b = false /\ Pair.__eq__ b a = false).
  { intros a b Ha Hb. unfold Pair.__eq__. split.
    - destruct (negb (String.eqb (Pair.class_ a) (Pair.class_ b)));
        [reflexivity |].
      rewrite bool_decide_false by now apply Hkeys. reflexivity.
    - destruct (negb (String.eqb (Pair.class_ b) (Pair.class_ a)));
        [reflexivity |].
      rewrite bool_decide_false; [reflexivity |].
      intros E. symmetry in E. now apply (Hkeys a b). }
  split; [| split].
  - intros Hcls. unfold Pair.__eq__.
    apply String.eqb_neq in Hcls. now rewrite Hcls.
  - apply Hneq.
  - intros vals vecs Hp. unfold Pair.eigen, Pair.data.
    destruct data_bound; simpl; [| reflexivity].
    refine (proj1 (Hneq p _ Hp _)). discriminate.
Qed.

End PairEqMore.

(** ** Windows wider than the trace, and what the search reads *)

Section Reads.
Context `{DataWindow} {ns : Names}.

(** X21.  A window wider than the trace is always refused: whatever its
    offset, [asarray] raises one of the two range errors. *)
Theorem asarray_wider_than_trace (w : Window.t) (N : Z) :
  N mod 2 = 1 -> Window.width w mod 2 = 1 -> N < Window.width w ->
  exists err, Window.asarray w N = Raise err /\ range_error err.
Proof.
  intros HN Hodd Hwide.
  destruct (Window_start_end w N HN) as [Hs He].
  apply (asarray_range_error_iff w N _ _ Hs He).
  clear Hs He. Z.quot_rem_to_equations. Z.div_mod_to_equations. lia.
Qed.

(** X22.  Of its keyword arguments the search reads the presence of
    [rcvcorr] and [srccorr], never their values, and the values of [mode]
    and [pol]; of the measurement it reads the data, the objective, the two
    grids and, for a keyword that is present, the stored correction.  Two
    calls that agree on these give the same result. *)
Theorem gridsearch_reads (self self' : Measure.t) (kw kw' : kwargs) :
  Measure.data self = Measure.data self' ->
  Measure.func self = Measure.func self' ->
  Measure.degs self = Measure.degs self' ->
  Measure.slags self = Measure.slags self' ->
  has_key kw "rcvcorr" = has_key kw' "rcvcorr" ->
  has_key kw "srccorr" = has_key kw' "srccorr" ->
  kw !! "mode" = kw' !! "mode" -> kw !! "pol" = kw' !! "pol" ->
  (has_key kw "rcvcorr" = true ->
   Measure.__rcvcorr self = Measure.__rcvcorr self') ->
  (has_key kw "srccorr" = true ->
   Measure.__srccorr self = Measure.__srccorr self') ->
  Measure.gridsearch self kw = Measure.gridsearch self' kw'.
Proof.
  intros Hd Hf Hdg Hsl Hr Hs Hm Hp Hrcv Hsrc.
  assert (Hsc : Measure.srccorr_closure self kw
                = Measure.srccorr_closure self' kw').
  { unfold Measure.srccorr_closure. rewrite <- Hs.
    destruct (has_key kw "srccorr"); [now rewrite Hsrc | reflexivity]. }
  assert (Hrot : Measure.rotpol_closure kw = Measure.rotpol_closure kw').
  { unfold Measure.rotpol_closure, Measure.pol_minus.
    now rewrite Hm, Hp. }
  rewrite !gridsearch_unfold.
  unfold Measure.getout.
  rewrite <- Hd, <- Hdg, <- Hsl, <- Hr, <- Hf, <- Hsc, <- Hrot.
  destruct (Pair.copy _) as [cp | e]; [| reflexivity]. simpl.
  destruct (Pair.rotateto _ _) as [c | e]; [| reflexivity]. simpl.
  destruct (Measure.window_bounds _) as [wb | e]; [| reflexivity]. simpl.
  destruct (has_key kw "rcvcorr"); [| reflexivity].
  now rewrite Hrcv.
Qed.

End Reads.

(** ** Errors of a new measurement *)

Section NewMeasure.
Context `{DataWindow} {ns : Names}.


End NewMeasure.

(** ** The further properties on concrete inputs *)

Module Examples.
Import Rational Inputs.

Lemma init_pair15 :
  Pair.__init__ [VArray (array1 x15); VArray (array1 y15)] kw_delta
  = Ok pair15.
Proof. reflexivity. Defined.

Lemma init_m_lags : Measure.__init__ pair15 energy kw_lags = Ok m_lags.
Proof. reflexivity. Defined.

Lemma Qeven_even (z : Z) : Z.even (even z) = true.
Proof. simpl. now rewrite Z.even_mul. Defined.

(** X1 on the window [w3] and a trace of five samples. *)
Lemma Window_span_witness :
  exists s c e,
    Window.start w3 5 = Ok s /\ Window.centre w3 5 = Ok c
    /\ Window.end_ w3 5 = Ok e /\ e - s + 1 = 3 /\ s <= c <= e.
Proof.
  destruct (proj1 (Window_span w3 5) eq_refl)
    as (s & c & e & Hs & Hc & He & _ & _ & Hw).
  destruct (Hw eq_refl eq_refl) as [Hwidth Horder].
  exists s, c, e.
  split; [exact Hs |]. split; [exact Hc |]. split; [exact He |].
  split; [exact Hwidth | exact Horder].
Defined.

(** X2 on [w3], which spans samples 2 to 4 of a trace of five samples, in
    the sources as they stand. *)
Lemma asarray_signal_unbound_witness :
  Window.asarray (ns := as_written) w3 5 = Raise (NameError "signal").
Proof.
  refine (proj2 (asarray_signal_unbound (ns := as_written) w3 5 eq_refl)
                2 4 eq_refl eq_refl _ _); simpl; lia.
Defined.

(** X3 on [w3], moved two samples to the left. *)
Lemma Window_shift_moves_witness :
  Window.start (Window.shift w3 (-2)) 5 = Ok 0
  /\ Window.centre (Window.shift w3 (-2)) 5 = Ok 1
  /\ Window.end_ (Window.shift w3 (-2)) 5 = Ok 2
  /\ Window.shift (Window.shift w3 (-2)) 2 = w3.
Proof.
  destruct (Window_shift_moves w3 (-2) 5 2 3 4 eq_refl eq_refl eq_refl)
    as (Hs & Hc & He & _ & _ & Hback).
  split; [exact Hs |]. split; [exact Hc |]. split; [exact He | exact Hback].
Defined.

(** X4 on the arguments of [w3], resized by three samples. *)
Lemma Window_init_odd_witness :
  Window.__init__ 3 1 None = Ok w3
  /\ Z.odd (Window.width (Methods.Window_resize w3 3)) = true.
Proof.
  destruct (Window_init_odd 3 1 None) as (Hodd & _ & Hresize).
  split; [exact (Hodd eq_refl) |].
  exact (Hresize Qeven_even w3 3 (Hodd eq_refl)).
Defined.

(** X5 on [pair15]. *)
Lemma Pair_init_invariant_witness :
  Pair._nsamps pair15 mod 2 = 1
  /\ size (Pair.y pair15) = size (Pair.x pair15)
  /\ Window.width (Pair.window pair15) mod 2 = 1.
Proof.
  destruct (Pair_init_invariant _ kw_delta pair15 init_pair15)
    as (_ & _ & _ & Hn & Hsize & _ & _ & Hw & _).
  split; [exact Hn |]. split; [exact Hsize | exact Hw].
Defined.

(** X6 on [pair15] with the window [w3]. *)
Lemma Pair_window_times_witness :
  (exists s c e,
     Data.wbeg (Pair.with_window pair15 w3) = Ok (fmul (of_int s) (1 # 10)%Q)
     /\ Data.wcentre (Pair.with_window pair15 w3)
        = Ok (fmul (of_int c) (1 # 10)%Q)
     /\ Data.wend (Pair.with_window pair15 w3) = Ok (fmul (of_int e) (1 # 10)%Q)
     /\ s + e = 2 * c /\ c = 7 + 1)
  /\ Z.of_nat (length (Data.t pair15)) = 15.
Proof.
  destruct (Pair_window_times _ kw_delta pair15 w3 init_pair15)
    as (Htimes & Hlen & _).
  split; [exact Htimes | exact Hlen].
Defined.

(** X7 on the keywords of [m15]. *)
Lemma Measure_init_succeeds_iff_witness :
  correction_ok kw_search "rcvcorr" /\ correction_ok kw_search "srccorr".
Proof.
  destruct (proj1 (Measure_init_succeeds_iff pair15 energy kw_search)
                  (ex_intro _ m15 Witness.init_m15))
    as (_ & _ & Hr & Hs).
  split; [exact Hr | exact Hs].
Defined.

(** X8 on [m15]. *)
Lemma Measure_init_fields_witness :
  Measure.data m15 = pair15
  /\ length (Measure.lags m15) = length (Measure.slags m15)
  /\ Measure.errsurf m15 = None /\ Measure.conf95level m15 = None.
Proof.
  destruct (Measure_init_fields pair15 energy kw_search m15 Witness.init_m15)
    as (Hd & _ & _ & _ & _ & _ & Hlen & Hsurf & Hlevel).
  split; [exact Hd |]. split; [exact Hlen |].
  split; [exact Hsurf | exact Hlevel].
Defined.

Lemma grid_kw_lags :
  Measure._get_degs_lags_and_slags pair15 kw_lags
  = Ok ([-90; -30; 30]%Q, [0; 1 # 5; 2 # 5]%Q, [0; 2; 4]).
Proof. reflexivity. Defined.

(** X9 on five requested lag times that fall on three sample counts. *)
Lemma lag_grid_size_witness :
  (length [0; 2; 4] <= length [0; 1 # 20; 1 # 10; 3 # 25; 3 # 10]%Q)%nat
  /\ length [0; 1 # 5; 2 # 5]%Q = length [0; 2; 4].
Proof.
  destruct (lag_grid_size pair15 kw_lags
              [0; 1 # 20; 1 # 10; 3 # 25; 3 # 10]%Q
              [-90; -30; 30]%Q [0; 1 # 5; 2 # 5]%Q [0; 2; 4]
              eq_refl grid_kw_lags)
    as (Hle & Hlen & _).
  split; [exact Hle | exact Hlen].
Defined.

(** X10 on the search of [m15]. *)
Lemma gridsearch_shape_witness :
  length [[[19; 14]; [18; 5]]]%Q = length (Measure.degs m15)
  /\ (forall row, row ∈ [[[19; 14]; [18; 5]]]%Q ->
        length row = length (Measure.slags m15)).
Proof.
  destruct (gridsearch_shape (ns := all_bound) m15 kw_search _
              Witness.gridsearch_m15)
    as (Hlen & Hrows & _).
  split; [exact Hlen | exact Hrows].
Defined.

(** X11 on [m_lags], which has no correction, searched with the keywords
    of [m15], with the two imports and [data] supplied. *)
Lemma gridsearch_unconfigured_correction_witness :
  is_ok (Measure.gridsearch (ns := all_bound) m_lags kw_search) = false.
Proof.
  apply (gridsearch_unconfigured_correction (ns := all_bound) pair15 energy
           kw_lags kw_search m_lags init_m_lags).
  left. split; reflexivity.
Defined.

(** X12 on a measurement with an empty grid of angles. *)
Lemma gridsearch_rotpol_needs_pol_witness :
  (Measure.degs m_rotpol = [] /\ ([] : list (list (list Q))) = [])
  \/ (Measure.slags m_rotpol = []
      /\ Forall (fun row => row = []) ([] : list (list (list Q)))).
Proof.
  exact (gridsearch_rotpol_needs_pol (ns := all_bound) m_rotpol kw_rotpol []
           eq_refl eq_refl eq_refl).
Defined.

(** X13 on [m15], whose grid has one angle. *)
Lemma get_errors_small_grid_witness :
  Measure.get_errors m15 (VStr "min") = Raise IndexError.
Proof.
  apply get_errors_small_grid. right. simpl. lia.
Defined.

(** X14 on [m_flat]. *)
Lemma get_errors_surftype_witness :
  Measure.get_errors m_flat VNone
  = Raise (ValueError "surftype must be min or max").
Proof.
  apply (get_errors_surftype m_flat VNone 0 (1 # 5) 0 60 [2 # 5] [120])%Q;
    [reflexivity | reflexivity | discriminate | discriminate].
Defined.

Lemma wf_cm_basins : wf_mask cm_basins.
Proof. repeat constructor. Defined.

Lemma nonempty_cm_basins : nonempty_mask cm_basins.
Proof. exists 0%nat, 0%nat. reflexivity. Defined.

(** X15 on the mask with two basins. *)
Lemma error_extents_bounded_witness :
  exists span arc,
    Measure.lagspan cm_basins = Ok span /\ Measure.lengthTrue cm_basins = Ok arc
    /\ 1 <= span <= 3 /\ 1 <= arc <= 3.
Proof.
  exact (error_extents_bounded cm_basins wf_cm_basins nonempty_cm_basins).
Defined.

(** X16 on the mask with two basins, inside the full mask. *)
Lemma error_extents_monotone_witness :
  submask cm_basins cm_flat_max
  /\ Measure.lagspan cm_basins = Ok 3 /\ Measure.lagspan cm_flat_max = Ok 3
  /\ Measure.lengthTrue cm_basins = Ok 2
  /\ Measure.lengthTrue cm_flat_max = Ok 3
  /\ 3 <= 3 /\ 2 <= 3.
Proof.
  assert (Hsub : submask cm_basins cm_flat_max).
  { intros r c Hn.
    destruct r as [| [| [| r]]]; destruct c as [| [| [| c]]];
      try discriminate Hn; reflexivity. }
  split; [exact Hsub |].
  split; [reflexivity |]. split; [reflexivity |].
  split; [reflexivity |]. split; [reflexivity |].
  apply (error_extents_monotone cm_basins cm_flat_max 3 3 2 3);
    try reflexivity;
    [exact wf_cm_basins | repeat constructor | exact nonempty_cm_basins
    | exact Hsub].
Defined.

(** X17 on the mask across the seam, moved two columns along the angle
    axis. *)
Lemma errors_seam_invariant_witness :
  Measure.lagspan (roll_columns 2 cm_seam) = Measure.lagspan cm_seam
  /\ Measure.lengthTrue (roll_columns 2 cm_seam) = Measure.lengthTrue cm_seam
  /\ Measure.mask_errors (roll_columns 2 cm_seam) 2%Q (1 # 5)%Q
     = Measure.mask_errors cm_seam 2%Q (1 # 5)%Q.
Proof.
  apply errors_seam_invariant.
  - repeat constructor.
  - exists 0%nat, 0%nat. reflexivity.
Defined.

(** X18 on [m15] in the sources as they stand, and on [m_flat], which has
    no correction, with the two imports and [data] supplied. *)
Lemma Measure_data_corr_returns_no_pair_witness :
  Methods.Measure_data_corr (ns := as_written) m15 0%Q 0%Q
  = Raise (NameError "io")
  /\ Methods.Measure_data_corr (ns := all_bound) m_flat 0%Q 0%Q = Ok None
  /\ Measure.rcvcorr m_flat = None /\ Measure.srccorr m_flat = None.
Proof.
  split.
  - exact (proj1 (Measure_data_corr_returns_no_pair (ns := as_written)
                    m15 0%Q 0%Q) eq_refl).
  - assert (Hrun : Methods.Measure_data_corr (ns := all_bound) m_flat 0%Q 0%Q
                   = Ok None) by (vm_compute; reflexivity).
    split; [exact Hrun |].
    exact (proj2 (proj2 (Measure_data_corr_returns_no_pair (ns := all_bound)
                           m_flat 0%Q 0%Q) None Hrun)).
Defined.

(** X20 on [pair15] and the same pair after [eigen()], with [data]
    supplied. *)
Lemma Pair_eq_classes_and_keys_witness :
  exists q, Pair.eigen (ns := all_bound) pair15 [2; 1]%Q [[1; 0]; [0; 1]]%Q
            = Ok q
            /\ Pair.__eq__ pair15 q = false.
Proof.
  destruct (Pair_eq_classes_and_keys (ns := all_bound) pair15 pair15)
    as (_ & _ & Heig).
  specialize (Heig [2; 1]%Q [[1; 0]; [0; 1]]%Q eq_refl).
  destruct (Pair.eigen (ns := all_bound) pair15 [2; 1]%Q [[1; 0]; [0; 1]]%Q)
    as [q | e] eqn:E; [| discriminate E].
  exists q. split; [reflexivity | exact Heig].
Defined.

(** X21 on a window of seven samples and a trace of five. *)
Lemma asarray_wider_than_trace_witness :
  exists err, Window.asarray (ns := as_written) w7 5 = Raise err
              /\ range_error err.
Proof.
  apply asarray_wider_than_trace; [reflexivity | reflexivity | simpl; lia].
Defined.

(** X22 on [m15]: the search with [rcvcorr=None, srccorr=7] is the search
    with the keywords the measurement was built from. *)
Lemma gridsearch_reads_witness :
  Measure.gridsearch (ns := all_bound) m15 kw_present
  = Measure.gridsearch (ns := all_bound) m15 kw_search.
Proof.
  apply gridsearch_reads; reflexivity.
Defined.


End Examples.
